(** * Notes backend: the repository layer and its in-memory implementation

    A shallow embedding of [api/models/schemas.py],
    [api/repositories/notes_repository.py], [api/dependencies.py] and the
    handlers of [api/routers/notes.py], followed by the properties of the
    repository contract.

    Conventions of the embedding:
    - a Python [str] is the [string] of the bytes of its UTF-8 encoding;
      its length [len] is its number of code points;
    - a timezone-aware UTC [datetime] is the integer number of microseconds
      since the epoch, so that comparison of datetimes is comparison in [Z];
    - the two readings the repository takes from its environment, the clock
      ([datetime.now(timezone.utc)]) and the entropy source behind
      [uuid.uuid4()], are explicit arguments of the operations that use them;
    - a repository method is a computation in the monad [Repo], which threads
      the backing dict and records whether the call returned or raised. *)

From Stdlib Require Import String Ascii List ZArith Bool Lia.
From Stdlib Require Import Sorting.Sorted Sorting.Permutation.
From ExtLib Require Import Structures.Monad.
Import ListNotations.
Import MonadNotation.

Local Open Scope string_scope.
Local Open Scope Z_scope.
Local Open Scope monad_scope.

(** ** Python values *)

Definition str := string.

(** A byte [10xxxxxx] continues a code point begun by an earlier byte. *)
Definition is_continuation (c : ascii) : bool :=
  match c with
  | Ascii _ _ _ _ _ _ b6 b7 => b7 && negb b6
  end.

(** [len(s)]: the number of code points, one per byte that is not a
    continuation byte. *)
Fixpoint len (s : str) : nat :=
  match s with
  | EmptyString => O
  | String c s' => if is_continuation c then len s' else S (len s')
  end.
Definition datetime := Z.

Inductive exn : Type :=
| ValidationError
| HTTPException (status_code : Z) (detail : str).

(** The result of evaluating a call: it returns a value or raises. *)
Inductive outcome (A : Type) : Type :=
| Returned (a : A)
| Raised (e : exn).
Arguments Returned {A} a.
Arguments Raised {A} e.

(** ** models/schemas.py *)

(** [Field(..., min_length=1, max_length=200)] on [title] and
    [Field(..., min_length=1)] on [content]. *)
Definition title_ok (title : str) : bool :=
  (1 <=? len title)%nat && (len title <=? 200)%nat.

Definition content_ok (content : str) : bool :=
  (1 <=? len content)%nat.

Module NoteCreate.
Record t : Type := Build {
  title : str;
  content : str;
  tags : option (list str)
}.

(** The constraints of [NoteBase], which [NoteCreate] inherits. *)
Definition valid (p : t) : bool := title_ok (title p) && content_ok (content p).
End NoteCreate.

Inductive FieldName : Type := F_title | F_content | F_tags.

Module NoteUpdate.
(** A [NoteUpdate] instance: the three attributes, each [None] by default,
    and pydantic's [model_fields_set], the names given explicitly when the
    instance was built. *)
Record t : Type := Build {
  title : option str;
  content : option str;
  tags : option (list str);
  model_fields_set : list FieldName
}.

(** One member of the JSON object of a request body. *)
Inductive member (A : Type) : Type :=
| Absent
| Null
| Value (a : A).
Arguments Absent {A}.
Arguments Null {A}.
Arguments Value {A} a.

Record body : Type := Body {
  b_title : member str;
  b_content : member str;
  b_tags : member (list str)
}.

(** An [Optional[...]] field with [default=None]: a missing member takes the
    default, an explicit null is accepted as [None]. *)
Definition attribute {A : Type} (m : member A) : option A :=
  match m with
  | Absent => None
  | Null => None
  | Value a => Some a
  end.

Definition is_set {A : Type} (f : FieldName) (m : member A) : list FieldName :=
  match m with
  | Absent => []
  | _ => [f]
  end.

(** The length constraints apply to a string that is present. *)
Definition member_ok {A : Type} (ok : A -> bool) (m : member A) : bool :=
  match m with
  | Value a => ok a
  | _ => true
  end.

Definition model_validate (b : body) : outcome t :=
  if member_ok title_ok (b_title b) && member_ok content_ok (b_content b)
  then Returned {| title := attribute (b_title b);
                   content := attribute (b_content b);
                   tags := attribute (b_tags b);
                   model_fields_set :=
                     is_set F_title (b_title b) ++ is_set F_content (b_content b)
                     ++ is_set F_tags (b_tags b) |}
  else Raised ValidationError.
End NoteUpdate.

Module Note.
Record t : Type := Build {
  id : str;
  title : str;
  content : str;
  tags : option (list str);
  created_at : datetime;
  updated_at : datetime
}.

(** [Note(id=..., title=..., ...)]: the constructor validates the
    constraints inherited from [NoteBase]. *)
Definition init (id title content : str) (tags : option (list str))
    (created_at updated_at : datetime) : outcome t :=
  if title_ok title && content_ok content
  then Returned (Build id title content tags created_at updated_at)
  else Raised ValidationError.

(** [n.model_copy(update={"title": .., "content": .., "tags": ..,
    "updated_at": ..})]: a copy with the four listed attributes replaced and
    the others kept; no validation is run. *)
Definition model_copy (n : t) (title content : str) (tags : option (list str))
    (updated_at : datetime) : t :=
  Build (id n) title content tags (created_at n) updated_at.
End Note.

(** ** Python's [dict] with [str] keys

    A dict keeps its entries in insertion order; assigning to a key that is
    present replaces the value in place, assigning to a new key appends. *)

Section Dict.
Context {V : Type}.

Definition dict := list (str * V).

Fixpoint dict_get (k : str) (d : dict) : option V :=
  match d with
  | [] => None
  | (k', v) :: d' => if String.eqb k k' then Some v else dict_get k d'
  end.

Fixpoint dict_set (k : str) (v : V) (d : dict) : dict :=
  match d with
  | [] => [(k, v)]
  | (k', v') :: d' =>
      if String.eqb k k' then (k', v) :: d' else (k', v') :: dict_set k v d'
  end.

(** The entries that remain after [d.pop(k, None)]. *)
Fixpoint dict_remove (k : str) (d : dict) : dict :=
  match d with
  | [] => []
  | (k', v) :: d' =>
      if String.eqb k k' then dict_remove k d' else (k', v) :: dict_remove k d'
  end.

Definition dict_pop (k : str) (d : dict) : option V * dict :=
  (dict_get k d, dict_remove k d).

Definition dict_keys (d : dict) : list str := map fst d.
Definition dict_values (d : dict) : list V := map snd d.

(** The representation invariant: a dict holds a key once. *)
Definition dict_wf (d : dict) : Prop := NoDup (dict_keys d).
End Dict.
Arguments dict V : clear implicits.

(** ** [uuid.uuid4().hex] *)

Definition hex_digit (d : Z) : ascii :=
  match d with
  | 0 => "0" | 1 => "1" | 2 => "2" | 3 => "3" | 4 => "4" | 5 => "5" | 6 => "6"
  | 7 => "7" | 8 => "8" | 9 => "9" | 10 => "a" | 11 => "b" | 12 => "c"
  | 13 => "d" | 14 => "e" | _ => "f"
  end%char.

(** ['%0<width>x' % n] for [0 <= n < 16^width]: the digits from the most
    significant one. *)
Fixpoint hex_fixed (width : nat) (n : Z) : string :=
  match width with
  | O => EmptyString
  | S w => String (hex_digit (Z.land (Z.shiftr n (4 * Z.of_nat w)) 15)) (hex_fixed w n)
  end.

(** [UUID(bytes=os.urandom(16), version=4).int], where [rnd] is the integer
    read from the sixteen random bytes: the variant and version bits are
    forced, the other 122 bits are those of [rnd]. *)
Definition uuid4_int (rnd : Z) : Z :=
  let i := Z.land rnd (Z.lnot (Z.shiftl 0xc000 48)) in
  let i := Z.lor i (Z.shiftl 0x8000 48) in
  let i := Z.land i (Z.lnot (Z.shiftl 0xf000 64)) in
  Z.lor i (Z.shiftl 4 76).

Definition uuid4_hex (rnd : Z) : str := hex_fixed 32 (uuid4_int rnd).

(** ** repositories/notes_repository.py *)

Definition Store := dict Note.t.

(** A method of the repository: it runs on the backing dict [self._store],
    and returns or raises, leaving a dict behind in both cases. *)
Definition Repo (A : Type) : Type := Store -> outcome A * Store.

#[export] Instance Monad_Repo : Monad Repo := {|
  ret := fun A (a : A) (s : Store) => (Returned a, s);
  bind := fun A B (c : Repo A) (k : A -> Repo B) (s : Store) =>
    match c s with
    | (Returned a, s') => k a s'
    | (Raised e, s') => (Raised e, s')
    end
|}.

(** A pure evaluation that may raise, placed in a method body. *)
Definition eval {A : Type} (o : outcome A) : Repo A := fun s => (o, s).

Definition store_get (k : str) : Repo (option Note.t) :=
  fun s => (Returned (dict_get k s), s).

Definition store_setitem (k : str) (v : Note.t) : Repo unit :=
  fun s => (Returned tt, dict_set k v s).

Definition store_pop (k : str) : Repo (option Note.t) :=
  fun s => (Returned (fst (dict_pop k s)), snd (dict_pop k s)).

Definition store_values : Repo (list Note.t) :=
  fun s => (Returned (dict_values s), s).

(** [sorted(xs, key=lambda n: n.updated_at, reverse=True)]. Python's sort is
    stable, also with [reverse=True]: notes with equal keys keep the order
    they have in [xs]. *)
Fixpoint insert_desc (n : Note.t) (l : list Note.t) : list Note.t :=
  match l with
  | [] => [n]
  | m :: l' =>
      if Note.updated_at n <? Note.updated_at m
      then m :: insert_desc n l'
      else n :: m :: l'
  end.

Fixpoint sorted_by_updated_at_desc (xs : list Note.t) : list Note.t :=
  match xs with
  | [] => []
  | n :: xs' => insert_desc n (sorted_by_updated_at_desc xs')
  end.

Module InMemoryNotesRepository.

Definition __init__ : Store := [].

Definition list_notes : Repo (list Note.t) :=
  vs <- store_values ;;
  ret (sorted_by_updated_at_desc vs).

Definition get_note (note_id : str) : Repo (option Note.t) :=
  store_get note_id.

Definition create_note (now : datetime) (rnd : Z) (payload : NoteCreate.t)
    : Repo Note.t :=
  let note_id := uuid4_hex rnd in
  note <- eval (Note.init note_id (NoteCreate.title payload)
                  (NoteCreate.content payload) (NoteCreate.tags payload)
                  now now) ;;
  store_setitem note_id note ;;
  ret note.

Definition update_note (now : datetime) (note_id : str) (payload : NoteUpdate.t)
    : Repo (option Note.t) :=
  found <- store_get note_id ;;
  match found with
  | None => ret None
  | Some existing =>
      let updated :=
        Note.model_copy existing
          (match NoteUpdate.title payload with
           | Some title => title
           | None => Note.title existing
           end)
          (match NoteUpdate.content payload with
           | Some content => content
           | None => Note.content existing
           end)
          (match NoteUpdate.tags payload with
           | Some tags => Some tags
           | None => Note.tags existing
           end)
          now in
      store_setitem note_id updated ;;
      ret (Some updated)
  end.

Definition delete_note (note_id : str) : Repo bool :=
  popped <- store_pop note_id ;;
  ret (match popped with Some _ => true | None => false end).

End InMemoryNotesRepository.

(** ** Histories of a repository

    A call of one of the five methods, with the readings of the clock and of
    the entropy source that the call would take. *)

Inductive call : Type :=
| ListNotes
| GetNote (note_id : str)
| CreateNote (now : datetime) (rnd : Z) (payload : NoteCreate.t)
| UpdateNote (now : datetime) (note_id : str) (payload : NoteUpdate.t)
| DeleteNote (note_id : str).

Inductive reply : Type :=
| Notes (ns : list Note.t)
| MaybeNote (n : option Note.t)
| ANote (n : Note.t)
| Flag (b : bool).

Definition perform (c : call) : Repo reply :=
  match c with
  | ListNotes => ns <- InMemoryNotesRepository.list_notes ;; ret (Notes ns)
  | GetNote note_id => n <- InMemoryNotesRepository.get_note note_id ;; ret (MaybeNote n)
  | CreateNote now rnd payload =>
      n <- InMemoryNotesRepository.create_note now rnd payload ;; ret (ANote n)
  | UpdateNote now note_id payload =>
      n <- InMemoryNotesRepository.update_note now note_id payload ;; ret (MaybeNote n)
  | DeleteNote note_id => b <- InMemoryNotesRepository.delete_note note_id ;; ret (Flag b)
  end.

(** The dict left by a sequence of calls; a call that raises leaves the dict
    it raised in. *)
Fixpoint run (history : list call) (s : Store) : Store :=
  match history with
  | [] => s
  | c :: history' => run history' (snd (perform c s))
  end.

(** The states a repository object can be in: those its methods lead to from
    the dict [__init__] builds. *)
Definition reachable (s : Store) : Prop :=
  exists history, s = run history InMemoryNotesRepository.__init__.

(** The clock readings of a history, in the order of the calls. *)
Fixpoint clock_readings (history : list call) : list datetime :=
  match history with
  | [] => []
  | CreateNote now _ _ :: history' => now :: clock_readings history'
  | UpdateNote now _ _ :: history' => now :: clock_readings history'
  | _ :: history' => clock_readings history'
  end.

(** Readings that never go back. *)
Fixpoint nondecreasing (ts : list datetime) : bool :=
  match ts with
  | [] => true
  | t :: ts' =>
      match ts' with
      | [] => true
      | t' :: _ => (t <=? t') && nondecreasing ts'
      end
  end.

(** The identifiers [uuid4] handed out along a history. *)
Fixpoint generated_ids (history : list call) : list str :=
  match history with
  | [] => []
  | CreateNote _ rnd _ :: history' => uuid4_hex rnd :: generated_ids history'
  | _ :: history' => generated_ids history'
  end.

(** ** dependencies.py

    The interpreter's heap of repository objects: [alloc] is what evaluating
    [InMemoryNotesRepository()] does, the address of the new object being the
    number of objects allocated before it. *)

Definition Heap := list Store.

Definition alloc (s : Store) (h : Heap) : nat * Heap := (List.length h, (h ++ [s])%list).

Definition deref (r : nat) (h : Heap) : Store := nth r h [].

Fixpoint assign (r : nat) (s : Store) (h : Heap) : Heap :=
  match h, r with
  | [], _ => []
  | _ :: h', O => s :: h'
  | s' :: h', S r' => s' :: assign r' s h'
  end.

(** [get_notes_repository]: builds a repository and yields it; the [finally]
    clause does nothing. *)
Definition get_notes_repository (h : Heap) : nat * Heap :=
  alloc InMemoryNotesRepository.__init__ h.

(** ** routers/notes.py *)

(** A handler: a computation on the heap. *)
Definition Handler (A : Type) : Type := Heap -> outcome A * Heap.

(** [repo: NotesRepository = Depends(get_notes_repository)]: the framework
    calls the provider for the request and passes what it yields; [on_repo c]
    then runs the method call [c] on that object. *)
Definition on_repo {A : Type} (c : Repo A) (k : A -> outcome A) : Handler A :=
  fun h =>
    let (repo, h1) := get_notes_repository h in
    match c (deref repo h1) with
    | (Returned a, s') => (k a, assign repo s' h1)
    | (Raised e, s') => (Raised e, assign repo s' h1)
    end.

Definition not_found {A : Type} : outcome A :=
  Raised (HTTPException 404 "Note not found").

Module Router.

Definition list_notes : Handler (list Note.t) :=
  on_repo InMemoryNotesRepository.list_notes Returned.

Definition create_note (now : datetime) (rnd : Z) (payload : NoteCreate.t)
    : Handler Note.t :=
  on_repo (InMemoryNotesRepository.create_note now rnd payload) Returned.

Definition get_note (note_id : str) : Handler (option Note.t) :=
  on_repo (InMemoryNotesRepository.get_note note_id)
    (fun note => match note with
                 | None => not_found
                 | Some n => Returned (Some n)
                 end).

Definition update_note (now : datetime) (note_id : str) (payload : NoteUpdate.t)
    : Handler (option Note.t) :=
  on_repo (InMemoryNotesRepository.update_note now note_id payload)
    (fun updated => match updated with
                    | None => not_found
                    | Some n => Returned (Some n)
                    end).

Definition delete_note (note_id : str) : Handler bool :=
  on_repo (InMemoryNotesRepository.delete_note note_id)
    (fun deleted => if deleted then Returned true else not_found).

End Router.

(** One request served: the handler a call is routed to. *)
Definition serve (c : call) (h : Heap) : Heap :=
  match c with
  | ListNotes => snd (Router.list_notes h)
  | GetNote note_id => snd (Router.get_note note_id h)
  | CreateNote now rnd payload => snd (Router.create_note now rnd payload h)
  | UpdateNote now note_id payload => snd (Router.update_note now note_id payload h)
  | DeleteNote note_id => snd (Router.delete_note note_id h)
  end.

Definition serve_all (requests : list call) (h : Heap) : Heap :=
  fold_left (fun h c => serve c h) requests h.

(** ** Predicates on listings and stores *)

(** [a] may stand directly before [b] in a listing. *)
Definition desc (a b : Note.t) : Prop := Note.updated_at b <= Note.updated_at a.

(** The notes last touched at the instant [t]. *)
Definition at_instant (t : datetime) (n : Note.t) : bool := Note.updated_at n =? t.

(** Every entry is filed under the id of its note. *)
Definition key_consistent (s : Store) : Prop :=
  forall k n, In (k, n) s -> Note.id n = k.

(** Every stored note was stamped by a reading of the history, and not
    before it was created. *)
Definition stamped (ts : list datetime) (s : Store) : Prop :=
  forall n, In n (dict_values s) ->
    Note.created_at n <= Note.updated_at n /\ In (Note.updated_at n) ts.

(** ** Sample data

    The scenario of the repository's test plan: two notes created one after
    the other, the clock advancing between the calls. *)

Definition shopping : NoteCreate.t := NoteCreate.Build "Shopping" "Milk, eggs" None.
Definition todo : NoteCreate.t := NoteCreate.Build "Todo" "Finish report" (Some ["work"]).

Definition two_notes : list call := [CreateNote 10 1 shopping; CreateNote 20 2 todo].
Definition sample_store : Store := run two_notes InMemoryNotesRepository.__init__.

Definition shopping_id : str := uuid4_hex 1.
Definition todo_id : str := uuid4_hex 2.

(** [NoteUpdate(title="X")] and [NoteUpdate()]. *)
Definition retitle : NoteUpdate.t := NoteUpdate.Build (Some "X") None None [F_title].
Definition touch : NoteUpdate.t := NoteUpdate.Build None None None [].


(** ** The entry a call addresses *)

(** The key a call may write or remove: the generated id for a creation,
    the id passed for an update or a deletion; reads address none. *)
Definition touched (c : call) : option str :=
  match c with
  | ListNotes | GetNote _ => None
  | CreateNote _ rnd _ => Some (uuid4_hex rnd)
  | UpdateNote _ note_id _ => Some note_id
  | DeleteNote note_id => Some note_id
  end.

(** The constraints [NoteUpdate] puts on the attributes that are not [None]. *)
Definition update_ok (payload : NoteUpdate.t) : bool :=
  match NoteUpdate.title payload with Some title => title_ok title | None => true end
  && match NoteUpdate.content payload with
     | Some content => content_ok content
     | None => true
     end.

(** A history whose update payloads all satisfy the constraints of
    [NoteUpdate], as payloads built by validation do. *)
Fixpoint validated (history : list call) : bool :=
  match history with
  | [] => true
  | UpdateNote _ _ payload :: history' => update_ok payload && validated history'
  | _ :: history' => validated history'
  end.

(** The bits [uuid4_int] forces, with the value it forces them to: the
    variant in bits 62 and 63, the version in bits 76 to 79. *)
Definition forced (i : Z) : option bool :=
  if (i =? 63) || (i =? 78) then Some true
  else if (i =? 62) || ((76 <=? i) && (i <? 80)) then Some false
  else None.

(** The shape of an identifier: thirty-two lowercase hexadecimal digits. *)
Definition is_hex_char (c : ascii) : bool :=
  existsb (Ascii.eqb c) (list_ascii_of_string "0123456789abcdef").

(** ** routers/notes.py: the handlers on the repository they are passed

    Each handler takes the repository as its [repo] argument; below is the
    body of each, run on that repository. *)

Definition throw {A : Type} (e : exn) : Repo A := fun s => (Raised e, s).

Module Endpoint.

Definition list_notes : Repo (list Note.t) :=
  InMemoryNotesRepository.list_notes.

Definition create_note (now : datetime) (rnd : Z) (payload : NoteCreate.t)
    : Repo Note.t :=
  InMemoryNotesRepository.create_note now rnd payload.

Definition get_note (note_id : str) : Repo Note.t :=
  note <- InMemoryNotesRepository.get_note note_id ;;
  match note with
  | None => throw (HTTPException 404 "Note not found")
  | Some n => ret n
  end.

Definition update_note (now : datetime) (note_id : str) (payload : NoteUpdate.t)
    : Repo Note.t :=
  updated <- InMemoryNotesRepository.update_note now note_id payload ;;
  match updated with
  | None => throw (HTTPException 404 "Note not found")
  | Some n => ret n
  end.

Definition delete_note (note_id : str) : Repo unit :=
  deleted <- InMemoryNotesRepository.delete_note note_id ;;
  if deleted then ret tt else throw (HTTPException 404 "Note not found").

End Endpoint.

(** ** core/config.py *)

Definition nl : string := String (ascii_of_nat 10) EmptyString.

Module Theme.

Record t : Type := Build {
  name : str;
  description : str;
  primary : str;
  secondary : str;
  success : str;
  error : str;
  gradient : str;
  background : str;
  surface : str;
  text : str
}.

(** [Theme()]: every field at its default. *)
Definition default : t :=
  Build "Ocean Professional" "Blue & amber accents" "#2563EB" "#F59E0B" "#F59E0B"
    "#EF4444" "from-blue-500/10 to-gray-50" "#f9fafb" "#ffffff" "#111827".

End Theme.

Module AppConfig.

Record t : Type := Build {
  app_name : str;
  description : str;
  version : str;
  theme : Theme.t;
  database_url : option str
}.

Definition default_description : str :=
  "Modern, modular, and extensible notes management API." ++ nl ++ nl
  ++ "- Ocean Professional theme (blue with amber accents)" ++ nl
  ++ "- Clean architecture with routers, schemas, and a repository layer" ++ nl
  ++ "- Ready for future integration with a dedicated notes_database service".

(** The dict literal [openapi_meta] returns. *)
Definition openapi_meta (self : t) : dict str :=
  [("title", app_name self);
   ("description", description self);
   ("version", version self)].

End AppConfig.

(** The process environment, [os.environ]. *)
Definition environ := dict str.

(** [os.getenv(name)] and [os.getenv(name, default)]. *)
Definition getenv (env : environ) (name : str) : option str := dict_get name env.

Definition getenv_or (env : environ) (name default : str) : str :=
  match dict_get name env with
  | Some value => value
  | None => default
  end.

Definition load_config (env : environ) : AppConfig.t :=
  AppConfig.Build
    (getenv_or env "APP_NAME" "Notes Backend API")
    AppConfig.default_description
    (getenv_or env "APP_VERSION" "1.0.0")
    Theme.default
    (getenv env "NOTES_DATABASE_URL").

(** ** main.py *)

(** The payload of the health endpoint. *)
Definition health_check (config : AppConfig.t) : dict str :=
  [("status", "ok");
   ("service", AppConfig.app_name config);
   ("version", AppConfig.version config)].

(** The values of an OpenAPI schema, as far as this code builds them. *)
#[warnings="-register-all"]
Inductive json : Type :=
| JString (s : str)
| JObject (members : list (str * json)).

(** The [x-theme] extension. *)
Definition x_theme (config : AppConfig.t) : json :=
  let theme := AppConfig.theme config in
  JObject
    [("name", JString (Theme.name theme));
     ("palette",
      JObject
        [("primary", JString (Theme.primary theme));
         ("secondary", JString (Theme.secondary theme));
         ("success", JString (Theme.success theme));
         ("error", JString (Theme.error theme));
         ("background", JString (Theme.background theme));
         ("surface", JString (Theme.surface theme));
         ("text", JString (Theme.text theme));
         ("gradient", JString (Theme.gradient theme))]);
     ("style", JString "Modern");
     ("notes",
      JString "Clean layout, subtle shadows, rounded corners, minimalist design.")].

(** [if app.openapi_schema]: [None] and the empty dict are false. *)
Definition cached (openapi_schema : option (dict json)) : option (dict json) :=
  match openapi_schema with
  | None => None
  | Some [] => None
  | Some schema => Some schema
  end.

(** [custom_openapi], on the attribute [app.openapi_schema]; it returns the
    schema and the attribute it leaves. [get_openapi] is the framework's
    schema generator for the routes of the app, applied to title, version
    and description. *)
Definition custom_openapi (get_openapi : str -> str -> str -> dict json)
    (config : AppConfig.t) (openapi_schema : option (dict json))
    : dict json * option (dict json) :=
  match cached openapi_schema with
  | Some schema => (schema, openapi_schema)
  | None =>
      let schema :=
        dict_set "x-theme" (x_theme config)
          (get_openapi (AppConfig.app_name config) (AppConfig.version config)
             (AppConfig.description config)) in
      (schema, Some schema)
  end.

(** The euro sign, U+20AC: three bytes, one code point. *)
Definition euro : str :=
  String (ascii_of_nat 226) (String (ascii_of_nat 130)
    (String (ascii_of_nat 172) EmptyString)).

(** [s * n]. *)
Fixpoint times (n : nat) (s : str) : str :=
  match n with
  | O => EmptyString
  | S n' => s ++ times n' s
  end.

(** * Properties *)

(** ** The dict *)

Section DictFacts.
Context {V : Type}.
Implicit Types (d : dict V) (k : str) (v : V).

Lemma dict_get_set_same k v d : dict_get k (dict_set k v d) = Some v.
Proof.
  induction d as [|[k' v'] d IH]; simpl.
  - now rewrite String.eqb_refl.
  - destruct (String.eqb_spec k k') as [->|Hne]; simpl.
    + now rewrite String.eqb_refl.
    + destruct (String.eqb_spec k k'); [contradiction | exact IH].
Qed.

Lemma dict_get_set_other k k0 v d :
  k0 <> k -> dict_get k0 (dict_set k v d) = dict_get k0 d.
Proof.
  intros Hne. induction d as [|[k' v'] d IH]; simpl.
  - destruct (String.eqb_spec k0 k); [contradiction | reflexivity].
  - destruct (String.eqb_spec k k') as [->|Hkk']; simpl.
    + destruct (String.eqb_spec k0 k'); [contradiction | reflexivity].
    + now rewrite IH.
Qed.

Lemma dict_get_remove_same k d : dict_get k (dict_remove k d) = None.
Proof.
  induction d as [|[k' v'] d IH]; simpl; [reflexivity|].
  destruct (String.eqb_spec k k') as [->|Hne]; simpl; [exact IH|].
  destruct (String.eqb_spec k k'); [contradiction | exact IH].
Qed.

Lemma dict_get_remove_other k k0 d :
  k0 <> k -> dict_get k0 (dict_remove k d) = dict_get k0 d.
Proof.
  intros Hne. induction d as [|[k' v'] d IH]; simpl; [reflexivity|].
  destruct (String.eqb_spec k k') as [->|Hkk']; simpl.
  - destruct (String.eqb_spec k0 k'); [contradiction | exact IH].
  - now rewrite IH.
Qed.

Lemma dict_remove_absent k d : dict_get k d = None -> dict_remove k d = d.
Proof.
  induction d as [|[k' v'] d IH]; simpl; [reflexivity|].
  destruct (String.eqb_spec k k'); [discriminate|].
  intros H. now rewrite IH.
Qed.

Lemma dict_get_In k v d : dict_get k d = Some v -> In (k, v) d.
Proof.
  induction d as [|[k' v'] d IH]; simpl; [discriminate|].
  destruct (String.eqb_spec k k') as [->|Hne].
  - intros [= ->]. now left.
  - intros H. right. now apply IH.
Qed.

Lemma dict_get_None_keys k d : dict_get k d = None <-> ~ In k (dict_keys d).
Proof.
  induction d as [|[k' v'] d IH]; simpl; [tauto|].
  destruct (String.eqb_spec k k') as [->|Hne].
  - split; [discriminate | intros H; exfalso; apply H; now left].
  - rewrite IH. split.
    + intros H [Heq|Hin]; [now apply Hne | now apply H].
    + intros H Hin. apply H. now right.
Qed.

Lemma dict_In_get k v d : dict_wf d -> In (k, v) d -> dict_get k d = Some v.
Proof.
  unfold dict_wf. induction d as [|[k' v'] d IH]; simpl; [contradiction|].
  intros Hwf [Heq|Hin].
  - injection Heq as -> ->. now rewrite String.eqb_refl.
  - inversion Hwf as [|? ? Hnotin Hwf']; subst.
    destruct (String.eqb_spec k k') as [->|Hne]; [|now apply IH].
    exfalso. apply Hnotin. change k' with (fst (k', v)). now apply in_map.
Qed.

Lemma dict_set_In k v k0 v0 d :
  In (k0, v0) (dict_set k v d) -> (k0 = k /\ v0 = v) \/ In (k0, v0) d.
Proof.
  induction d as [|[k' v'] d IH]; simpl.
  - intros [[= -> ->]|[]]. now left.
  - destruct (String.eqb_spec k k') as [->|Hne]; simpl.
    + intros [[= -> ->]|Hin]; [now left | right; now right].
    + intros [Heq|Hin]; [right; now left|].
      destruct (IH Hin) as [?|?]; [now left | right; now right].
Qed.

Lemma dict_remove_In k k0 v0 d : In (k0, v0) (dict_remove k d) -> In (k0, v0) d.
Proof.
  induction d as [|[k' v'] d IH]; simpl; [tauto|].
  destruct (String.eqb_spec k k'); simpl.
  - intros H. right. now apply IH.
  - intros [Heq|Hin]; [now left | right; now apply IH].
Qed.

Lemma dict_set_keys k v d :
  dict_keys (dict_set k v d) =
  match dict_get k d with
  | Some _ => dict_keys d
  | None => (dict_keys d ++ [k])%list
  end.
Proof.
  induction d as [|[k' v'] d IH]; simpl; [reflexivity|].
  destruct (String.eqb_spec k k'); simpl; [reflexivity|].
  rewrite IH. now destruct (dict_get k d).
Qed.

Lemma dict_set_wf k v d : dict_wf d -> dict_wf (dict_set k v d).
Proof.
  unfold dict_wf. intros Hwf. rewrite dict_set_keys.
  destruct (dict_get k d) eqn:Hget; [exact Hwf|].
  apply dict_get_None_keys in Hget.
  apply NoDup_rev in Hwf. rewrite <- (rev_involutive (_ ++ _)).
  apply NoDup_rev. rewrite rev_app_distr. simpl. constructor; [|exact Hwf].
  now rewrite <- in_rev.
Qed.

Lemma dict_remove_wf k d : dict_wf d -> dict_wf (dict_remove k d).
Proof.
  unfold dict_wf. induction d as [|[k' v'] d IH]; simpl; [auto|].
  intros Hwf. inversion Hwf as [|? ? Hnotin Hwf']; subst.
  destruct (String.eqb_spec k k'); simpl; [now apply IH|].
  constructor; [|now apply IH].
  intros Hin. apply Hnotin. unfold dict_keys in *.
  apply in_map_iff in Hin as [[k1 v1] [Hk Hin]]. simpl in Hk. subst k1.
  apply dict_remove_In in Hin. change k' with (fst (k', v1)). now apply in_map.
Qed.

Lemma dict_set_fresh k v d : dict_get k d = None -> dict_set k v d = (d ++ [(k, v)])%list.
Proof.
induction d as [|[k' v'] d IH]; simpl; [reflexivity|].
destruct (String.eqb_spec k k'); [discriminate|].
intros H. now rewrite IH.
Qed.

Lemma dict_values_In v d : In v (dict_values d) <-> exists k, In (k, v) d.
Proof.
  unfold dict_values. rewrite in_map_iff. split.
  - intros [[k v0] [Hv Hin]]. simpl in Hv. subst. now exists k.
  - intros [k Hin]. now exists (k, v).
Qed.
End DictFacts.

(** ** The sort of [list_notes] *)

Lemma insert_desc_perm n l : Permutation (n :: l) (insert_desc n l).
Proof.
  induction l as [|m l IH]; simpl; [reflexivity|].
  destruct (Note.updated_at n <? Note.updated_at m); [|reflexivity].
  rewrite perm_swap. now constructor.
Qed.

Lemma sorted_perm xs : Permutation xs (sorted_by_updated_at_desc xs).
Proof.
  induction xs as [|n xs IH]; simpl; [constructor|].
  rewrite <- insert_desc_perm. now constructor.
Qed.

Lemma insert_desc_hd n m l :
  desc m n -> HdRel desc m l -> HdRel desc m (insert_desc n l).
Proof.
  intros Hmn Hhd. destruct l as [|m' l]; simpl; [now constructor|].
  inversion Hhd; subst.
  destruct (Note.updated_at n <? Note.updated_at m'); now constructor.
Qed.

Lemma insert_desc_sorted n l : Sorted desc l -> Sorted desc (insert_desc n l).
Proof.
  induction l as [|m l IH]; simpl; intros Hs.
  - repeat constructor.
  - inversion Hs as [|? ? Hs' Hhd]; subst.
    destruct (Z.ltb_spec (Note.updated_at n) (Note.updated_at m)) as [Hlt|Hge].
    + constructor; [now apply IH|].
      apply insert_desc_hd; [unfold desc; lia | exact Hhd].
    + constructor; [exact Hs|]. constructor. exact Hge.
Qed.

Lemma sorted_sorted xs : Sorted desc (sorted_by_updated_at_desc xs).
Proof.
  induction xs as [|n xs IH]; simpl; [constructor|].
  now apply insert_desc_sorted.
Qed.

Lemma Sorted_adjacent (l : list Note.t) :
  Sorted desc l ->
  forall i a b, nth_error l i = Some a -> nth_error l (S i) = Some b -> desc a b.
Proof.
  induction 1 as [|m l Hs IH Hhd]; intros i a b Ha Hb.
  - now destruct i.
  - destruct i as [|i]; simpl in Ha, Hb.
    + injection Ha as <-. destruct l as [|m' l]; [discriminate|].
      simpl in Hb. injection Hb as <-. now inversion Hhd.
    + now apply (IH i).
Qed.

(** Notes with the same [updated_at] come out in the order they went in. *)
Lemma insert_desc_stable t n l :
  filter (at_instant t) (insert_desc n l) = filter (at_instant t) (n :: l).
Proof.
  induction l as [|m l IH]; [reflexivity|].
  cbn [insert_desc].
  destruct (Z.ltb_spec (Note.updated_at n) (Note.updated_at m)) as [Hlt|Hge];
    [|reflexivity].
  cbn [filter] in *. rewrite IH. unfold at_instant.
  destruct (Z.eqb_spec (Note.updated_at n) t) as [Hn|Hn];
    destruct (Z.eqb_spec (Note.updated_at m) t) as [Hm|Hm];
    try reflexivity; lia.
Qed.

Lemma sorted_stable t xs :
  filter (at_instant t) (sorted_by_updated_at_desc xs) = filter (at_instant t) xs.
Proof.
  induction xs as [|n xs IH]; [reflexivity|].
  cbn [sorted_by_updated_at_desc]. rewrite insert_desc_stable.
  cbn [filter]. now rewrite IH.
Qed.

Lemma dict_values_set_In {V : Type} (k : str) (v v0 : V) (d : dict V) :
  In v0 (dict_values (dict_set k v d)) -> v0 = v \/ In v0 (dict_values d).
Proof.
  rewrite !dict_values_In. intros [k0 Hin].
  apply dict_set_In in Hin as [[_ ->]|Hin]; [now left | right; now exists k0].
Qed.

Lemma dict_values_remove_In {V : Type} (k : str) (v0 : V) (d : dict V) :
  In v0 (dict_values (dict_remove k d)) -> In v0 (dict_values d).
Proof.
  rewrite !dict_values_In. intros [k0 Hin]. exists k0. now apply dict_remove_In in Hin.
Qed.

Lemma dict_keys_remove_In {V : Type} (k k0 : str) (d : dict V) :
  In k0 (dict_keys (dict_remove k d)) -> In k0 (dict_keys d).
Proof.
  unfold dict_keys. rewrite !in_map_iff. intros [[k1 v1] [Hk Hin]].
  exists (k1, v1). split; [exact Hk | now apply dict_remove_In in Hin].
Qed.

(** ** The five methods, as equations *)

Module Eqns.
Import InMemoryNotesRepository.

Lemma list_notes_eq s :
  list_notes s = (Returned (sorted_by_updated_at_desc (dict_values s)), s).
Proof. reflexivity. Qed.

Lemma get_note_eq note_id s : get_note note_id s = (Returned (dict_get note_id s), s).
Proof. reflexivity. Qed.

Lemma create_note_valid now rnd payload s :
  NoteCreate.valid payload = true ->
  create_note now rnd payload s =
  let note := Note.Build (uuid4_hex rnd) (NoteCreate.title payload)
                (NoteCreate.content payload) (NoteCreate.tags payload) now now in
  (Returned note, dict_set (uuid4_hex rnd) note s).
Proof.
  unfold NoteCreate.valid, create_note, eval, Note.init. cbn. now intros ->.
Qed.

Lemma create_note_invalid now rnd payload s :
  NoteCreate.valid payload = false ->
  create_note now rnd payload s = (Raised ValidationError, s).
Proof.
  unfold NoteCreate.valid, create_note, eval, Note.init. cbn. now intros ->.
Qed.

Lemma update_note_absent now note_id payload s :
  dict_get note_id s = None ->
  update_note now note_id payload s = (Returned None, s).
Proof. unfold update_note, store_get. cbn. now intros ->. Qed.

Lemma update_note_present now note_id payload s existing :
  dict_get note_id s = Some existing ->
  update_note now note_id payload s =
  let updated :=
    Note.model_copy existing
      (match NoteUpdate.title payload with
       | Some title => title
       | None => Note.title existing
       end)
      (match NoteUpdate.content payload with
       | Some content => content
       | None => Note.content existing
       end)
      (match NoteUpdate.tags payload with
       | Some tags => Some tags
       | None => Note.tags existing
       end)
      now in
  (Returned (Some updated), dict_set note_id updated s).
Proof. unfold update_note, store_get. cbn. now intros ->. Qed.

Lemma delete_note_eq note_id s :
  delete_note note_id s =
  (Returned (match dict_get note_id s with Some _ => true | None => false end),
   dict_remove note_id s).
Proof. reflexivity. Qed.
End Eqns.

(** ** Invariants of the backing dict *)

(** What a call leaves in the dict. *)
Lemma perform_store c s :
  snd (perform c s) =
  match c with
  | ListNotes | GetNote _ => s
  | CreateNote now rnd payload =>
      if NoteCreate.valid payload
      then dict_set (uuid4_hex rnd)
             (Note.Build (uuid4_hex rnd) (NoteCreate.title payload)
                (NoteCreate.content payload) (NoteCreate.tags payload) now now) s
      else s
  | UpdateNote now note_id payload =>
      match dict_get note_id s with
      | None => s
      | Some existing =>
          dict_set note_id
            (Note.model_copy existing
               (match NoteUpdate.title payload with
                | Some title => title
                | None => Note.title existing
                end)
               (match NoteUpdate.content payload with
                | Some content => content
                | None => Note.content existing
                end)
               (match NoteUpdate.tags payload with
                | Some tags => Some tags
                | None => Note.tags existing
                end)
               now) s
      end
  | DeleteNote note_id => dict_remove note_id s
  end.
Proof.
  destruct c as [|note_id|now rnd payload|now note_id payload|note_id];
    try reflexivity.
  - cbn [perform bind ret Monad_Repo].
    destruct (NoteCreate.valid payload) eqn:Hv.
    + now rewrite Eqns.create_note_valid.
    + now rewrite Eqns.create_note_invalid.
  - cbn [perform bind ret Monad_Repo].
    destruct (dict_get note_id s) as [existing|] eqn:Hget.
    + now rewrite (Eqns.update_note_present _ _ _ _ _ Hget).
    + now rewrite Eqns.update_note_absent.
Qed.

Lemma run_app h1 h2 s : run (h1 ++ h2) s = run h2 (run h1 s).
Proof. revert s. induction h1 as [|c h1 IH]; intros s; simpl; [reflexivity | apply IH]. Qed.

Lemma run_snoc h c s : run (h ++ [c]) s = snd (perform c (run h s)).
Proof. now rewrite run_app. Qed.

(** A property that holds of the empty dict and that every call preserves
    holds in every reachable state. *)
Lemma reachable_invariant (P : Store -> Prop) :
  P InMemoryNotesRepository.__init__ ->
  (forall c s, P s -> P (snd (perform c s))) ->
  forall s, reachable s -> P s.
Proof.
  intros Hinit Hstep s [history ->].
  induction history as [|c history IH] using rev_ind; [exact Hinit|].
  rewrite run_snoc. now apply Hstep.
Qed.

Lemma reachable_step c s : reachable s -> reachable (snd (perform c s)).
Proof. intros [history ->]. exists (history ++ [c])%list. now rewrite run_snoc. Qed.

Lemma perform_wf c s : dict_wf s -> dict_wf (snd (perform c s)).
Proof.
  intros Hwf. rewrite perform_store.
  destruct c as [|note_id|now rnd payload|now note_id payload|note_id]; try exact Hwf.
  - destruct (NoteCreate.valid payload); [now apply dict_set_wf | exact Hwf].
  - destruct (dict_get note_id s); [now apply dict_set_wf | exact Hwf].
  - now apply dict_remove_wf.
Qed.

Lemma perform_key_consistent c s :
  key_consistent s -> key_consistent (snd (perform c s)).
Proof.
  unfold key_consistent. intros Hkc. rewrite perform_store.
  destruct c as [|note_id|now rnd payload|now note_id payload|note_id]; try exact Hkc.
  - destruct (NoteCreate.valid payload); [|exact Hkc].
    intros k n Hin. apply dict_set_In in Hin as [[-> ->]|Hin]; [reflexivity | now apply Hkc].
  - destruct (dict_get note_id s) as [existing|] eqn:Hget; [|exact Hkc].
    intros k n Hin. apply dict_set_In in Hin as [[-> ->]|Hin]; [|now apply Hkc].
    simpl. apply Hkc. now apply dict_get_In.
  - intros k n Hin. apply dict_remove_In in Hin. now apply Hkc.
Qed.

Lemma reachable_wf s : reachable s -> dict_wf s.
Proof.
  apply reachable_invariant; [constructor | exact perform_wf].
Qed.

Lemma reachable_key_consistent s : reachable s -> key_consistent s.
Proof.
  apply reachable_invariant; [intros k n [] | exact perform_key_consistent].
Qed.

Lemma key_consistent_get s k n : key_consistent s -> dict_get k s = Some n -> Note.id n = k.
Proof. intros Hkc Hget. apply Hkc. now apply dict_get_In. Qed.

(** In a reachable state, the notes with a given id are the note filed under it. *)
Lemma reachable_id_lookup s n :
  reachable s -> In n (dict_values s) -> dict_get (Note.id n) s = Some n.
Proof.
  intros Hr Hin. apply dict_values_In in Hin as [k Hin].
  pose proof (reachable_key_consistent s Hr k n Hin) as Hid. rewrite Hid.
  apply dict_In_get; [now apply reachable_wf | exact Hin].
Qed.

(** ** The clock along a history *)

Lemma clock_readings_app h1 h2 :
  clock_readings (h1 ++ h2) = (clock_readings h1 ++ clock_readings h2)%list.
Proof.
  induction h1 as [|c h1 IH]; [reflexivity|].
  destruct c; simpl; now rewrite IH.
Qed.

Lemma nondecreasing_cons t ts :
  nondecreasing (t :: ts) = true ->
  nondecreasing ts = true /\ forall x, In x ts -> t <= x.
Proof.
  revert t. induction ts as [|t' ts IH]; intros t H.
  - split; [reflexivity | intros x []].
  - change (nondecreasing (t :: t' :: ts))
      with ((t <=? t') && nondecreasing (t' :: ts)) in H.
    apply andb_true_iff in H as [Htt' Hts]. apply Z.leb_le in Htt'.
    split; [exact Hts|].
    destruct (IH t' Hts) as [_ Hlow].
    intros x [<-|Hx]; [exact Htt' | specialize (Hlow x Hx); lia].
Qed.

Lemma nondecreasing_snoc ts t :
  nondecreasing (ts ++ [t]) = true ->
  nondecreasing ts = true /\ forall x, In x ts -> x <= t.
Proof.
  induction ts as [|t0 ts IH]; intros H.
  - split; [reflexivity | intros x []].
  - simpl app in H. destruct (nondecreasing_cons _ _ H) as [Hts Hlow].
    destruct (IH Hts) as [Hts' Hup]. split.
    + destruct ts as [|t1 ts]; [reflexivity|].
      change (nondecreasing (t0 :: t1 :: ts))
        with ((t0 <=? t1) && nondecreasing (t1 :: ts)).
      apply andb_true_iff. split; [|exact Hts'].
      apply Z.leb_le, Hlow. now left.
    + intros x [<-|Hx]; [|now apply Hup].
      apply Hlow, in_or_app. right. now left.
Qed.

Lemma stamped_weaken ts ts' s : stamped ts s -> stamped (ts ++ ts') s.
Proof.
  intros Hst n Hin. destruct (Hst n Hin) as [Hle Hts].
  split; [exact Hle | apply in_or_app; now left].
Qed.

Lemma run_stamped history :
  nondecreasing (clock_readings history) = true ->
  stamped (clock_readings history) (run history InMemoryNotesRepository.__init__).
Proof.
  induction history as [|c history IH] using rev_ind; intros Hmono.
  - intros n [].
  - rewrite clock_readings_app in *. rewrite run_snoc, perform_store.
    set (s := run history InMemoryNotesRepository.__init__) in *.
    destruct c as [|note_id|now rnd payload|now note_id payload|note_id];
      simpl clock_readings in *.
    + rewrite app_nil_r in *. now apply IH.
    + rewrite app_nil_r in *. now apply IH.
    + destruct (nondecreasing_snoc _ _ Hmono) as [Hmono' Hup].
      specialize (IH Hmono').
      destruct (NoteCreate.valid payload); [|now apply stamped_weaken].
      intros n Hin. apply dict_values_set_In in Hin as [->|Hin].
      * simpl. split; [lia | apply in_or_app; right; now left].
      * now apply (stamped_weaken _ [now] _ IH).
    + destruct (nondecreasing_snoc _ _ Hmono) as [Hmono' Hup].
      specialize (IH Hmono').
      destruct (dict_get note_id s) as [existing|] eqn:Hget;
        [|now apply stamped_weaken].
      intros n Hin. apply dict_values_set_In in Hin as [->|Hin].
      * simpl. split; [|apply in_or_app; right; now left].
        assert (Hex : In existing (dict_values s)).
        { apply dict_values_In. exists note_id. now apply dict_get_In. }
        destruct (IH existing Hex) as [Hle Hts]. specialize (Hup _ Hts). lia.
      * now apply (stamped_weaken _ [now] _ IH).
    + rewrite app_nil_r in *. intros n Hin.
      apply dict_values_remove_In in Hin. now apply IH.
Qed.

(** ** The identifiers along a history *)

Lemma generated_ids_app h1 h2 :
  generated_ids (h1 ++ h2) = (generated_ids h1 ++ generated_ids h2)%list.
Proof.
  induction h1 as [|c h1 IH]; [reflexivity|].
  destruct c; simpl; now rewrite IH.
Qed.

(** The keys of the dict are identifiers that [uuid4] produced. *)
Lemma run_keys_generated history k :
  In k (dict_keys (run history InMemoryNotesRepository.__init__)) ->
  In k (generated_ids history).
Proof.
  revert k. induction history as [|c history IH] using rev_ind; intros k.
  - intros [].
  - rewrite generated_ids_app, run_snoc, perform_store.
    set (s := run history InMemoryNotesRepository.__init__) in *.
    intros Hin. apply in_or_app.
    destruct c as [|note_id|now rnd payload|now note_id payload|note_id].
    + left. now apply IH.
    + left. now apply IH.
    + destruct (NoteCreate.valid payload); [|left; now apply IH].
      rewrite dict_set_keys in Hin.
      destruct (dict_get (uuid4_hex rnd) s); [left; now apply IH|].
      apply in_app_or in Hin as [Hin|[<-|[]]]; [left; now apply IH | right; now left].
    + left. apply IH. destruct (dict_get note_id s) eqn:Hget; [|exact Hin].
      rewrite dict_set_keys, Hget in Hin. exact Hin.
    + left. apply IH. now apply dict_keys_remove_In in Hin.
Qed.

(** An identifier is thirty-two characters long. *)
Lemma hex_fixed_length width n : String.length (hex_fixed width n) = width.
Proof. induction width as [|w IH]; simpl; [reflexivity | now rewrite IH]. Qed.

Lemma uuid4_hex_nonempty rnd : uuid4_hex rnd <> "".
Proof.
  intros H. apply (f_equal String.length) in H.
  unfold uuid4_hex in H. rewrite hex_fixed_length in H. discriminate.
Qed.

(** * The repository contract *)

Import InMemoryNotesRepository.

(** ** Partial update *)

(** C1. [update_note] merges field by field: a field of title, content and
    tags that the payload provides (an empty tags list included) replaces the
    stored one, a field it does not provide keeps its stored value, and the
    merged note is what the store then holds; a payload that provides only a
    title changes, of the three, only the title. *)
Theorem update_note_field_level_merge :
  forall (s : Store) (now : datetime) (note_id : str) (payload : NoteUpdate.t)
         (existing : Note.t),
    fst (get_note note_id s) = Returned (Some existing) ->
    exists updated s',
      update_note now note_id payload s = (Returned (Some updated), s') /\
      get_note note_id s' = (Returned (Some updated), s') /\
      (forall v, NoteUpdate.title payload = Some v -> Note.title updated = v) /\
      (NoteUpdate.title payload = None -> Note.title updated = Note.title existing) /\
      (forall v, NoteUpdate.content payload = Some v -> Note.content updated = v) /\
      (NoteUpdate.content payload = None ->
       Note.content updated = Note.content existing) /\
      (forall v, NoteUpdate.tags payload = Some v -> Note.tags updated = Some v) /\
      (NoteUpdate.tags payload = Some [] -> Note.tags updated = Some []) /\
      (NoteUpdate.tags payload = None -> Note.tags updated = Note.tags existing) /\
      (forall x fields, payload = NoteUpdate.Build (Some x) None None fields ->
         Note.title updated = x /\
         Note.content updated = Note.content existing /\
         Note.tags updated = Note.tags existing).
Proof.
  intros s now note_id payload existing Hget.
  rewrite Eqns.get_note_eq in Hget. simpl in Hget. injection Hget as Hget.
  rewrite (Eqns.update_note_present _ _ _ _ _ Hget). cbv zeta.
  eexists. eexists. split; [reflexivity|].
  split; [now rewrite Eqns.get_note_eq, dict_get_set_same|].
  simpl. repeat split.
  - now intros v ->.
  - now intros ->.
  - now intros v ->.
  - now intros ->.
  - now intros v ->.
  - now intros ->.
  - now intros ->.
  - now subst payload.
  - now subst payload.
  - now subst payload.
Qed.

Lemma update_note_field_level_merge_witness :
  fst (get_note shopping_id sample_store)
  = Returned (Some (Note.Build shopping_id "Shopping" "Milk, eggs" None 10 10)) /\
  exists updated s',
    update_note 30 shopping_id retitle sample_store = (Returned (Some updated), s') /\
    Note.title updated = "X" /\
    Note.content updated = "Milk, eggs" /\
    Note.tags updated = None.
Proof.
  split; [reflexivity|].
  destruct (update_note_field_level_merge sample_store 30 shopping_id retitle
              (Note.Build shopping_id "Shopping" "Milk, eggs" None 10 10) eq_refl)
    as (updated & s' & Hrun & _ & _ & _ & _ & _ & _ & _ & _ & Honly).
  destruct (Honly "X" [F_title] eq_refl) as (Ht & Hc & Hg).
  exists updated, s'. repeat split; assumption.
Defined.

(** C3, as the claim has it, fails: the new [updated_at] is whatever the
    clock reads, and nothing keeps a reading from being earlier than the
    stored one. With the clock set back to 5, touching the note that was
    stamped at 10 leaves it with an [updated_at] before the previous one. *)
Lemma update_note_can_step_back :
  fst (get_note shopping_id sample_store)
  = Returned (Some (Note.Build shopping_id "Shopping" "Milk, eggs" None 10 10)) /\
  exists s',
    update_note 5 shopping_id touch sample_store
    = (Returned (Some (Note.Build shopping_id "Shopping" "Milk, eggs" None 10 5)), s') /\
    ~ (Note.updated_at (Note.Build shopping_id "Shopping" "Milk, eggs" None 10 5)
       >= Note.updated_at (Note.Build shopping_id "Shopping" "Milk, eggs" None 10 10)).
Proof.
  split; [reflexivity|].
  exists (snd (update_note 5 shopping_id touch sample_store)).
  split; [reflexivity|]. cbn [Note.updated_at]. lia.
Qed.

(** C3, amended. [update_note] on an existing id stores the note it returns
    under the same id, leaving the keys and every other entry as they were;
    the note keeps [id] and [created_at], takes the fields the payload
    provides and has the clock reading as [updated_at]; with no field
    provided it is the stored note with only [updated_at] replaced. The new
    [updated_at] is not before the previous one exactly when the clock
    reading is not, which is the case when the clock never goes back along
    the history of the repository. *)
Theorem update_note_preserves_identity :
  forall (s : Store) (now : datetime) (note_id : str) (payload : NoteUpdate.t)
         (existing : Note.t),
    fst (get_note note_id s) = Returned (Some existing) ->
    exists updated s',
      update_note now note_id payload s = (Returned (Some updated), s') /\
      get_note note_id s' = (Returned (Some updated), s') /\
      (forall k, k <> note_id -> get_note k s' = (fst (get_note k s), s')) /\
      dict_keys s' = dict_keys s /\
      Note.id updated = Note.id existing /\
      Note.created_at updated = Note.created_at existing /\
      Note.updated_at updated = now /\
      Note.title updated
      = match NoteUpdate.title payload with
        | Some v => v
        | None => Note.title existing
        end /\
      Note.content updated
      = match NoteUpdate.content payload with
        | Some v => v
        | None => Note.content existing
        end /\
      Note.tags updated
      = match NoteUpdate.tags payload with
        | Some v => Some v
        | None => Note.tags existing
        end /\
      (NoteUpdate.title payload = None -> NoteUpdate.content payload = None ->
       NoteUpdate.tags payload = None ->
       updated = Note.Build (Note.id existing) (Note.title existing)
                   (Note.content existing) (Note.tags existing)
                   (Note.created_at existing) now) /\
      (Note.updated_at updated >= Note.updated_at existing
       <-> now >= Note.updated_at existing) /\
      (forall history,
         s = run history __init__ ->
         nondecreasing (clock_readings history ++ [now]) = true ->
         Note.updated_at updated >= Note.updated_at existing).
Proof.
  intros s now note_id payload existing Hget.
  rewrite Eqns.get_note_eq in Hget. simpl in Hget. injection Hget as Hget.
  rewrite (Eqns.update_note_present _ _ _ _ _ Hget). cbv zeta.
  eexists. eexists. split; [reflexivity|].
  split; [now rewrite Eqns.get_note_eq, dict_get_set_same|].
  split.
  { intros k Hk. rewrite !Eqns.get_note_eq. cbn [fst].
    now rewrite dict_get_set_other. }
  split; [now rewrite dict_set_keys, Hget|].
  cbn [Note.model_copy Note.id Note.created_at Note.updated_at Note.title
       Note.content Note.tags].
  do 6 (split; [reflexivity|]).
  split; [now intros -> -> ->|].
  split; [tauto|].
  intros history -> Hmono.
  destruct (nondecreasing_snoc _ _ Hmono) as [Hmono' Hup].
  apply Z.le_ge, Hup. apply (run_stamped history Hmono').
  apply dict_values_In. exists note_id. now apply dict_get_In.
Qed.

Lemma update_note_preserves_identity_witness :
  fst (get_note shopping_id sample_store)
  = Returned (Some (Note.Build shopping_id "Shopping" "Milk, eggs" None 10 10)) /\
  exists updated s',
    update_note 30 shopping_id touch sample_store = (Returned (Some updated), s') /\
    get_note shopping_id s' = (Returned (Some updated), s') /\
    updated = Note.Build shopping_id "Shopping" "Milk, eggs" None 10 30 /\
    Note.updated_at updated >= 10.
Proof.
  split; [reflexivity|].
  destruct (update_note_preserves_identity sample_store 30 shopping_id touch
              (Note.Build shopping_id "Shopping" "Milk, eggs" None 10 10) eq_refl)
    as (updated & s' & Hrun & Hstored & _ & _ & _ & _ & _ & _ & _ & _ & Hsame & _
        & Hlater).
  exists updated, s'. split; [exact Hrun|]. split; [exact Hstored|]. split.
  - exact (Hsame eq_refl eq_refl eq_refl).
  - exact (Hlater two_notes eq_refl eq_refl).
Defined.

(** ** Deletion *)

(** C4. [delete_note] returns [True] exactly when [get_note] finds a note
    under the id (in a reachable state: exactly when a stored note carries
    the id); afterwards [get_note] on the id finds nothing, a second
    [delete_note] returns [False] and changes nothing, and the other entries
    are untouched. Deleting an id that is not there returns [False]. *)
Theorem delete_note_removes :
  forall (s : Store) (note_id : str),
    exists deleted s',
      delete_note note_id s = (Returned deleted, s') /\
      (deleted = true <-> exists n, get_note note_id s = (Returned (Some n), s)) /\
      (reachable s ->
       (deleted = true <-> exists n, In n (dict_values s) /\ Note.id n = note_id)) /\
      get_note note_id s' = (Returned None, s') /\
      delete_note note_id s' = (Returned false, s') /\
      (forall k, k <> note_id -> get_note k s' = (fst (get_note k s), s')) /\
      (deleted = false -> s' = s).
Proof.
  intros s note_id. rewrite Eqns.delete_note_eq.
  eexists. eexists. split; [reflexivity|].
  rewrite !Eqns.get_note_eq, Eqns.delete_note_eq.
  rewrite !dict_get_remove_same.
  repeat split.
  - destruct (dict_get note_id s) as [n|]; [now exists n | discriminate].
  - intros [n [= ->]]. reflexivity.
  - destruct (dict_get note_id s) as [n|] eqn:Hget; [|discriminate].
    intros _. exists n. split.
    + apply dict_values_In. exists note_id. now apply dict_get_In.
    + apply (key_consistent_get s); [now apply reachable_key_consistent | exact Hget].
  - intros [n [Hin <-]]. now rewrite (reachable_id_lookup s n).
  - now rewrite dict_remove_absent by apply dict_get_remove_same.
  - intros k Hne. rewrite !Eqns.get_note_eq. simpl. now rewrite dict_get_remove_other.
  - destruct (dict_get note_id s) eqn:Hget; [discriminate|].
    intros _. now apply dict_remove_absent.
Qed.

(** ** Listing *)

(** C5. [list_notes] leaves the store as it is and returns the stored notes,
    each as often as it is stored, by [updated_at] descending: of two
    adjacent notes the first was touched no earlier than the second. The
    listing is a function of the store, and notes with equal [updated_at]
    come in the order of the backing dict. *)
Theorem list_notes_sorted :
  forall (s : Store),
    exists ns,
      list_notes s = (Returned ns, s) /\
      Permutation (dict_values s) ns /\
      (forall n, In n ns <-> In n (dict_values s)) /\
      (forall i a b, nth_error ns i = Some a -> nth_error ns (S i) = Some b ->
         Note.updated_at a >= Note.updated_at b) /\
      (forall t, filter (at_instant t) ns = filter (at_instant t) (dict_values s)) /\
      list_notes (snd (list_notes s)) = (Returned ns, s).
Proof.
  intros s. rewrite Eqns.list_notes_eq.
  exists (sorted_by_updated_at_desc (dict_values s)).
  split; [reflexivity|]. split; [apply sorted_perm|]. split; [|split; [|split]].
  - intros n. split; apply Permutation_in;
      [symmetry|]; apply sorted_perm.
  - intros i a b Ha Hb.
    pose proof (Sorted_adjacent _ (sorted_sorted (dict_values s)) i a b Ha Hb) as H.
    unfold desc in H. lia.
  - intros t. apply sorted_stable.
  - reflexivity.
Qed.

(** ** Timestamps *)

(** C6. Along a history whose clock readings never go back, every stored note
    has [updated_at >= created_at]: [create_note] stamps both with the same
    reading, and [update_note] keeps [created_at] and stamps [updated_at]
    with a reading that is not before the previous one. *)
Theorem updated_at_not_before_created_at :
  forall (history : list call),
    nondecreasing (clock_readings history) = true ->
    let s := run history __init__ in
    (forall n, In n (dict_values s) -> Note.updated_at n >= Note.created_at n) /\
    (forall now rnd payload n s',
       create_note now rnd payload s = (Returned n, s') ->
       Note.created_at n = now /\ Note.updated_at n = now) /\
    (forall now note_id payload existing,
       nondecreasing (clock_readings history ++ [now]) = true ->
       fst (get_note note_id s) = Returned (Some existing) ->
       exists updated s',
         update_note now note_id payload s = (Returned (Some updated), s') /\
         Note.created_at updated = Note.created_at existing /\
         Note.updated_at updated = now /\
         Note.updated_at existing <= now /\
         Note.updated_at updated >= Note.created_at updated).
Proof.
  intros history Hmono s. pose proof (run_stamped history Hmono) as Hst.
  fold s in Hst. split; [|split].
  - intros n Hin. destruct (Hst n Hin) as [Hle _]. lia.
  - intros now rnd payload n s' Hrun.
    destruct (NoteCreate.valid payload) eqn:Hv.
    + rewrite (Eqns.create_note_valid _ _ _ _ Hv) in Hrun. cbv zeta in Hrun.
      injection Hrun as <- _. now split.
    + rewrite (Eqns.create_note_invalid _ _ _ _ Hv) in Hrun. discriminate.
  - intros now note_id payload existing Hmono' Hget.
    rewrite Eqns.get_note_eq in Hget. simpl in Hget. injection Hget as Hget.
    rewrite (Eqns.update_note_present _ _ _ _ _ Hget). cbv zeta.
    eexists. eexists. split; [reflexivity|]. simpl.
    assert (Hex : In existing (dict_values s)).
    { apply dict_values_In. exists note_id. now apply dict_get_In. }
    destruct (Hst existing Hex) as [Hle Hts].
    destruct (nondecreasing_snoc _ _ Hmono') as [_ Hup].
    specialize (Hup _ Hts). repeat split; lia.
Qed.

Lemma updated_at_not_before_created_at_witness :
  nondecreasing (clock_readings (two_notes ++ [UpdateNote 30 shopping_id retitle]))
  = true /\
  forall n,
    In n (dict_values (run (two_notes ++ [UpdateNote 30 shopping_id retitle]) __init__)) ->
    Note.updated_at n >= Note.created_at n.
Proof.
  split; [reflexivity|].
  exact (proj1 (updated_at_not_before_created_at
                  (two_notes ++ [UpdateNote 30 shopping_id retitle]) eq_refl)).
Defined.

(** ** Failure *)

(** C7. The methods return; none raises because a note is missing. For an id
    that is not in the store [get_note] and [update_note] return [None] and
    [delete_note] returns [False], each leaving the store as it was. The one
    exception a method can raise is the [ValidationError] of the [Note]
    constructor, in [create_note], on a payload that violates the schema,
    and then too the store is left as it was. *)
Theorem not_found_is_returned_not_raised :
  forall (s : Store) (now : datetime) (rnd : Z) (note_id : str)
         (created : NoteCreate.t) (payload : NoteUpdate.t),
    (exists ns, list_notes s = (Returned ns, s)) /\
    (exists found, get_note note_id s = (Returned found, s)) /\
    (exists updated s', update_note now note_id payload s = (Returned updated, s')) /\
    (exists deleted s', delete_note note_id s = (Returned deleted, s')) /\
    (NoteCreate.valid created = true ->
     exists note s', create_note now rnd created s = (Returned note, s')) /\
    (forall e s', create_note now rnd created s = (Raised e, s') ->
       e = ValidationError /\ NoteCreate.valid created = false /\ s' = s) /\
    (fst (get_note note_id s) = Returned None ->
     update_note now note_id payload s = (Returned None, s) /\
     delete_note note_id s = (Returned false, s)).
Proof.
  intros s now rnd note_id created payload.
  split; [eexists; reflexivity|].
  split; [eexists; reflexivity|].
  split.
  { destruct (dict_get note_id s) as [existing|] eqn:Hget.
    - rewrite (Eqns.update_note_present _ _ _ _ _ Hget). eexists. eexists. reflexivity.
    - rewrite (Eqns.update_note_absent _ _ _ _ Hget). eexists. eexists. reflexivity. }
  split; [eexists; eexists; reflexivity|].
  split; [|split].
  - intros Hv. rewrite (Eqns.create_note_valid _ _ _ _ Hv).
    eexists. eexists. reflexivity.
  - intros e s' Hrun. destruct (NoteCreate.valid created) eqn:Hv.
    + rewrite (Eqns.create_note_valid _ _ _ _ Hv) in Hrun. discriminate.
    + rewrite (Eqns.create_note_invalid _ _ _ _ Hv) in Hrun.
      injection Hrun as <- <-. auto.
  - rewrite Eqns.get_note_eq. simpl. intros [= Hget].
    rewrite (Eqns.update_note_absent _ _ _ _ Hget), Eqns.delete_note_eq, Hget.
    now rewrite (dict_remove_absent _ _ Hget).
Qed.

Lemma not_found_is_returned_not_raised_witness :
  NoteCreate.valid shopping = true /\
  fst (get_note "no-such-id" sample_store) = Returned None /\
  (exists note s', create_note 30 3 shopping sample_store = (Returned note, s')) /\
  update_note 30 "no-such-id" retitle sample_store = (Returned None, sample_store) /\
  delete_note "no-such-id" sample_store = (Returned false, sample_store).
Proof.
  split; [reflexivity|]. split; [reflexivity|].
  destruct (not_found_is_returned_not_raised sample_store 30 3 "no-such-id"
              shopping retitle)
    as (_ & _ & _ & _ & Hcreate & _ & Hmissing).
  split; [exact (Hcreate eq_refl) | exact (Hmissing eq_refl)].
Defined.

(** ** Creation *)

(** C2, as the claim has it, fails: the id is what [uuid4] yields, and
    [create_note] does not look whether it is already a key. The readings 1
    and 1 + 2^62 of the entropy source differ only in a bit that [uuid4]
    forces, so they yield one identifier: a creation with the second
    returns a note under the id of the note created with the first, which
    is thereby overwritten. *)
Lemma create_note_can_reuse_an_id :
  sample_store = run [CreateNote 10 1 shopping; CreateNote 20 2 todo] __init__ /\
  NoteCreate.valid todo = true /\
  uuid4_hex (1 + 2 ^ 62) = uuid4_hex 1 /\
  exists note s',
    create_note 30 (1 + 2 ^ 62) todo sample_store = (Returned note, s') /\
    In (Note.Build shopping_id "Shopping" "Milk, eggs" None 10 10)
      (dict_values sample_store) /\
    Note.id note = Note.id (Note.Build shopping_id "Shopping" "Milk, eggs" None 10 10) /\
    ~ In (Note.Build shopping_id "Shopping" "Milk, eggs" None 10 10) (dict_values s').
Proof.
  split; [reflexivity|]. split; [reflexivity|]. split; [reflexivity|].
  exists (Note.Build shopping_id "Todo" "Finish report" (Some ["work"]) 30 30).
  exists (snd (create_note 30 (1 + 2 ^ 62) todo sample_store)).
  split; [reflexivity|]. split; [now left|]. split; [reflexivity|].
  intros [H|[H|[]]]; discriminate H.
Qed.

(** C2, amended. For a valid payload [create_note] returns a note whose id
    is the identifier [uuid4] yields, which is not empty and which, in the
    store left behind, the new note alone carries; whose [created_at] and
    [updated_at] are both the clock reading; and whose title, content and
    tags are those of the payload, the tags being [None] when the payload
    has none. The id is fresh, carried by no note stored before, exactly
    when it is not yet a key of the store; then every note stored before is
    still stored. This is so whenever [uuid4] has not handed out the
    identifier before in the history of the repository; the code makes no
    check of its own. *)
Theorem create_note_returns_fresh_note :
  forall (history : list call) (now : datetime) (rnd : Z) (payload : NoteCreate.t),
    NoteCreate.valid payload = true ->
    let s := run history __init__ in
    exists note s',
      create_note now rnd payload s = (Returned note, s') /\
      Note.id note = uuid4_hex rnd /\
      Note.id note <> "" /\
      ((forall n, In n (dict_values s) -> Note.id n <> Note.id note)
       <-> get_note (Note.id note) s = (Returned None, s)) /\
      (get_note (Note.id note) s = (Returned None, s) ->
       forall n, In n (dict_values s) -> In n (dict_values s')) /\
      (~ In (uuid4_hex rnd) (generated_ids history) ->
       get_note (Note.id note) s = (Returned None, s)) /\
      get_note (Note.id note) s' = (Returned (Some note), s') /\
      (forall n, In n (dict_values s') -> Note.id n = Note.id note -> n = note) /\
      Note.created_at note = now /\
      Note.updated_at note = now /\
      Note.created_at note = Note.updated_at note /\
      Note.title note = NoteCreate.title payload /\
      Note.content note = NoteCreate.content payload /\
      Note.tags note = NoteCreate.tags payload /\
      (NoteCreate.tags payload = None -> Note.tags note = None).
Proof.
  intros history now rnd payload Hvalid s.
  assert (Hr : reachable s) by now exists history.
  pose proof (reachable_step (CreateNote now rnd payload) s Hr) as Hr'.
  rewrite perform_store, Hvalid in Hr'.
  rewrite (Eqns.create_note_valid _ _ _ _ Hvalid). cbv zeta.
  set (note := Note.Build (uuid4_hex rnd) (NoteCreate.title payload)
                 (NoteCreate.content payload) (NoteCreate.tags payload) now now) in *.
  set (s' := dict_set (uuid4_hex rnd) note s) in *.
  assert (Hstored : dict_get (uuid4_hex rnd) s' = Some note)
    by apply dict_get_set_same.
  exists note, s'. split; [reflexivity|]. split; [reflexivity|].
  split; [apply uuid4_hex_nonempty|].
  rewrite !Eqns.get_note_eq. cbn [Note.id note].
  split.
  { split.
    - intros Hfresh. destruct (dict_get (uuid4_hex rnd) s) as [old|] eqn:Hold;
        [|reflexivity].
      exfalso. apply (Hfresh old).
      + apply dict_values_In. exists (uuid4_hex rnd). now apply dict_get_In.
      + apply (key_consistent_get s); [now apply reachable_key_consistent | exact Hold].
    - intros [= Hfree] n Hin Hid.
      rewrite <- Hid, (reachable_id_lookup s n Hr Hin) in Hfree. discriminate. }
  split.
  { intros [= Hfree] n Hin. subst s'. rewrite (dict_set_fresh _ _ _ Hfree).
    unfold dict_values in *. rewrite map_app. apply in_or_app. now left. }
  split.
  { intros Hnew. do 2 f_equal. apply dict_get_None_keys. intros Hin. apply Hnew.
    now apply run_keys_generated. }
  split; [now rewrite Hstored|].
  split.
  { intros n Hin Hid.
    pose proof (reachable_id_lookup s' n Hr' Hin) as Hn.
    rewrite Hid, Hstored in Hn. now injection Hn. }
  repeat split; auto.
Qed.

Lemma create_note_returns_fresh_note_witness :
  NoteCreate.valid todo = true /\
  exists note s',
    create_note 30 3 todo sample_store = (Returned note, s') /\
    Note.id note <> "" /\
    (forall n, In n (dict_values sample_store) -> Note.id n <> Note.id note) /\
    Note.created_at note = Note.updated_at note /\
    Note.tags note = Some ["work"].
Proof.
  assert (Hnew : ~ In (uuid4_hex 3) (generated_ids two_notes)).
  { intros [H|[H|[]]]; discriminate H. }
  split; [reflexivity|].
  destruct (create_note_returns_fresh_note two_notes 30 3 todo eq_refl)
    as (note & s' & Hrun & _ & Hid & Hfresh & _ & Hgen & _ & _ & _ & _ & Hsame & _ & _
        & Htags & _).
  exists note, s'. split; [exact Hrun|]. split; [exact Hid|].
  split; [exact (proj2 Hfresh (Hgen Hnew))|]. split; [exact Hsame | exact Htags].
Defined.

(** ** Absent and null *)




(** ** Key consistency *)

Lemma key_consistent_ids (s : Store) :
  key_consistent s -> map Note.id (dict_values s) = dict_keys s.
Proof.
  unfold key_consistent, dict_values, dict_keys.
  induction s as [|[k n] s IH]; intros Hkc; [reflexivity|].
  simpl. rewrite (Hkc k n (or_introl eq_refl)). f_equal.
  apply IH. intros k' n' Hin. apply Hkc. now right.
Qed.

(** C10. In a reachable state every note is stored under its own id; the
    calls keep it so; hence the ids of the stored notes are pairwise
    distinct and [get_note] on the id of a stored note finds that note. *)
Theorem store_is_key_consistent :
  forall (s : Store),
    reachable s ->
    (forall k n, fst (get_note k s) = Returned (Some n) -> Note.id n = k) /\
    (forall k n, In (k, n) s -> Note.id n = k) /\
    (forall c k n, In (k, n) (snd (perform c s)) -> Note.id n = k) /\
    NoDup (map Note.id (dict_values s)) /\
    (forall n, In n (dict_values s) ->
       get_note (Note.id n) s = (Returned (Some n), s)).
Proof.
  intros s Hr. pose proof (reachable_key_consistent s Hr) as Hkc.
  split; [|split; [|split; [|split]]].
  - intros k n. rewrite Eqns.get_note_eq. simpl. intros [= Hget].
    now apply (key_consistent_get s).
  - exact Hkc.
  - intros c. now apply perform_key_consistent.
  - rewrite (key_consistent_ids s Hkc). now apply reachable_wf.
  - intros n Hin. rewrite Eqns.get_note_eq. now rewrite (reachable_id_lookup s n Hr Hin).
Qed.

Lemma store_is_key_consistent_witness :
  reachable sample_store /\
  NoDup (map Note.id (dict_values sample_store)) /\
  fst (get_note todo_id sample_store)
  = Returned (Some (Note.Build todo_id "Todo" "Finish report" (Some ["work"]) 20 20)).
Proof.
  assert (Hr : reachable sample_store) by (exists two_notes; reflexivity).
  split; [exact Hr|].
  destruct (store_is_key_consistent sample_store Hr) as (_ & _ & _ & Hids & Hfind).
  split; [exact Hids|].
  exact (f_equal fst
           (Hfind (Note.Build todo_id "Todo" "Finish report" (Some ["work"]) 20 20)
              (or_intror (or_introl eq_refl)))).
Defined.

(** ** The provider *)

Lemma deref_alloc s h : deref (fst (alloc s h)) (snd (alloc s h)) = s.
Proof.
  unfold deref, alloc. simpl. induction h as [|s0 h IH]; [reflexivity | exact IH].
Qed.

Lemma deref_alloc_other s h r :
  (r < List.length h)%nat -> deref r (snd (alloc s h)) = deref r h.
Proof. intros Hlt. unfold deref, alloc. simpl. now apply app_nth1. Qed.

Lemma on_repo_result {A : Type} (c : Repo A) (k : A -> outcome A) (h : Heap) :
  fst (on_repo c k h) =
  match fst (c InMemoryNotesRepository.__init__) with
  | Returned a => k a
  | Raised e => Raised e
  end.
Proof.
  unfold on_repo, get_notes_repository.
  pose proof (deref_alloc InMemoryNotesRepository.__init__ h) as Hd.
  destruct (alloc InMemoryNotesRepository.__init__ h) as [repo h1]. simpl in Hd.
  rewrite Hd. now destruct (c InMemoryNotesRepository.__init__) as [[a|e] s'].
Qed.

(** ** The scenario of the test plan *)

Example scenario_listing :
  let a := Note.Build shopping_id "Shopping" "Milk, eggs" None 10 10 in
  let b := Note.Build todo_id "Todo" "Finish report" (Some ["work"]) 20 20 in
  let a' := Note.Build shopping_id "Shopping" "Milk, eggs, bread" None 10 30 in
  let more := NoteUpdate.Build None (Some "Milk, eggs, bread") None [F_content] in
  fst (list_notes sample_store) = Returned [b; a] /\
  fst (list_notes (run [UpdateNote 30 shopping_id more] sample_store))
  = Returned [a'; b] /\
  fst (list_notes (run [UpdateNote 30 shopping_id more; DeleteNote todo_id] sample_store))
  = Returned [a'] /\
  fst (get_note todo_id
         (run [UpdateNote 30 shopping_id more; DeleteNote todo_id] sample_store))
  = Returned None.
Proof. repeat split. Qed.

(** A note posted in one request is gone in the next. *)
Example scenario_requests :
  let h := snd (Router.create_note 10 1 shopping []) in
  deref 0 h = [(shopping_id, Note.Build shopping_id "Shopping" "Milk, eggs" None 10 10)] /\
  fst (Router.list_notes h) = Returned [] /\
  fst (Router.get_note shopping_id h) = not_found.
Proof. repeat split. Qed.

(** * Further properties of the repository *)

(** ** More on the dict and the sort *)

Lemma dict_set_twice {V : Type} (k : str) (v w : V) (d : dict V) :
  dict_set k w (dict_set k v d) = dict_set k w d.
Proof.
  induction d as [|[k' v'] d IH]; simpl.
  - now rewrite String.eqb_refl.
  - destruct (String.eqb_spec k k') as [->|Hne]; simpl.
    + now rewrite String.eqb_refl.
    + destruct (String.eqb_spec k k'); [contradiction | now rewrite IH].
Qed.

Lemma dict_set_length {V : Type} (k : str) (v : V) (d : dict V) :
  List.length (dict_set k v d) =
  match dict_get k d with
  | Some _ => List.length d
  | None => S (List.length d)
  end.
Proof.
  induction d as [|[k' v'] d IH]; simpl; [reflexivity|].
  destruct (String.eqb_spec k k'); simpl; [reflexivity|].
  rewrite IH. now destruct (dict_get k d).
Qed.

Lemma dict_remove_length {V : Type} (k : str) (v : V) (d : dict V) :
  dict_wf d -> dict_get k d = Some v ->
  S (List.length (dict_remove k d)) = List.length d.
Proof.
  unfold dict_wf. induction d as [|[k' v'] d IH]; simpl; [discriminate|].
  intros Hwf Hget. inversion Hwf as [|? ? Hnotin Hwf']; subst.
  destruct (String.eqb_spec k k') as [->|Hne].
  - rewrite dict_remove_absent; [reflexivity|]. now apply dict_get_None_keys.
  - simpl. f_equal. now apply IH.
Qed.

Lemma dict_values_length {V : Type} (d : dict V) :
  List.length (dict_values d) = List.length d.
Proof. apply length_map. Qed.

Lemma dict_values_set_new {V : Type} (k : str) (v : V) (d : dict V) :
  In v (dict_values (dict_set k v d)).
Proof.
  apply dict_values_In. exists k. apply dict_get_In, dict_get_set_same.
Qed.

Lemma sorted_length xs : List.length (sorted_by_updated_at_desc xs) = List.length xs.
Proof. symmetry. apply Permutation_length, sorted_perm. Qed.

Lemma insert_desc_front n l :
  (forall m, In m l -> Note.updated_at m <= Note.updated_at n) ->
  insert_desc n l = n :: l.
Proof.
  destruct l as [|m l]; [reflexivity|]. intros Hle. simpl.
  destruct (Z.ltb_spec (Note.updated_at n) (Note.updated_at m)) as [Hlt|_];
    [|reflexivity].
  specialize (Hle m (or_introl eq_refl)). lia.
Qed.

(** The one note that is later than all the others heads the sorted list. *)
Lemma sorted_latest_first xs n :
  In n xs ->
  (forall m, In m xs -> m = n \/ Note.updated_at m < Note.updated_at n) ->
  exists rest, sorted_by_updated_at_desc xs = n :: rest.
Proof.
  induction xs as [|x xs IH]; intros Hin Hmax; [contradiction|].
  cbn [sorted_by_updated_at_desc].
  destruct (Hmax x (or_introl eq_refl)) as [->|Hlt].
  - eexists. apply insert_desc_front. intros m Hm.
    apply (Permutation_in _ (Permutation_sym (sorted_perm xs))) in Hm.
    destruct (Hmax m (or_intror Hm)) as [->|Hlt]; lia.
  - destruct Hin as [->|Hin]; [lia|].
    destruct (IH Hin (fun m Hm => Hmax m (or_intror Hm))) as [rest Hrest].
    rewrite Hrest. simpl.
    destruct (Z.ltb_spec (Note.updated_at x) (Note.updated_at n)); [|lia].
    now eexists.
Qed.

Lemma desc_transitive a b c : desc a b -> desc b c -> desc a c.
Proof. unfold desc. lia. Qed.

Lemma sorted_strongly xs : StronglySorted desc (sorted_by_updated_at_desc xs).
Proof.
  apply Sorted_StronglySorted; [|apply sorted_sorted].
  intros a b c. apply desc_transitive.
Qed.

Lemma StronglySorted_pairs (l : list Note.t) :
  StronglySorted desc l ->
  forall i j a b, (i < j)%nat -> nth_error l i = Some a -> nth_error l j = Some b ->
    desc a b.
Proof.
  induction 1 as [|m l Hs IH Hall]; intros i j a b Hij Ha Hb.
  - now destruct i.
  - destruct j as [|j]; [lia|]. simpl in Hb. destruct i as [|i]; simpl in Ha.
    + injection Ha as <-. rewrite Forall_forall in Hall.
      apply Hall. now apply nth_error_In in Hb.
    + apply (IH i j); [lia | assumption | assumption].
Qed.

(** Filtering a sorted list and inserting commute. *)
Lemma insert_desc_filter (p : Note.t -> bool) n l :
  StronglySorted desc l ->
  filter p (insert_desc n l) =
  if p n then insert_desc n (filter p l) else filter p l.
Proof.
  induction 1 as [|m l Hs IH Hall].
  - simpl. now destruct (p n).
  - cbn [insert_desc].
    destruct (Z.ltb_spec (Note.updated_at n) (Note.updated_at m)) as [Hlt|Hge].
    + cbn [filter]. rewrite IH. destruct (p n), (p m); try reflexivity.
      cbn [insert_desc].
      destruct (Z.ltb_spec (Note.updated_at n) (Note.updated_at m)); [reflexivity | lia].
    + cbn [filter]. destruct (p n); [|reflexivity].
      symmetry. apply insert_desc_front. intros x Hx.
      assert (Hin : In x (m :: l)).
      { destruct (p m); [|right]; try (destruct Hx as [<-|Hx]; [now left | right]);
          now apply filter_In in Hx. }
      destruct Hin as [<-|Hin]; [exact Hge|].
      rewrite Forall_forall in Hall. specialize (Hall x Hin). unfold desc in Hall. lia.
Qed.

Lemma sorted_filter (p : Note.t -> bool) xs :
  filter p (sorted_by_updated_at_desc xs) = sorted_by_updated_at_desc (filter p xs).
Proof.
  induction xs as [|x xs IH]; [reflexivity|].
  cbn [sorted_by_updated_at_desc filter].
  rewrite insert_desc_filter by apply sorted_strongly.
  rewrite IH. now destruct (p x).
Qed.

Lemma dict_remove_values (s : Store) (k : str) :
  key_consistent s ->
  dict_values (dict_remove k s) =
  filter (fun n => negb (String.eqb k (Note.id n))) (dict_values s).
Proof.
  unfold key_consistent, dict_values.
  induction s as [|[k' n] s IH]; intros Hkc; [reflexivity|].
  cbn [dict_remove map snd filter].
  rewrite (Hkc k' n (or_introl eq_refl)).
  assert (IH' := IH (fun k0 n0 Hin => Hkc k0 n0 (or_intror Hin))).
  destruct (String.eqb k k'); simpl; now rewrite IH'.
Qed.

(** ** What a call leaves alone *)

(** X1. A call changes at most the entry it addresses: the lookup of every
    other id gives after the call what it gave before. *)
Theorem call_changes_only_its_entry :
  forall (c : call) (s : Store) (k : str),
    touched c <> Some k ->
    get_note k (snd (perform c s)) = (fst (get_note k s), snd (perform c s)).
Proof.
  intros c s k Hk. rewrite !Eqns.get_note_eq. cbn [fst]. f_equal. f_equal.
  rewrite perform_store.
  destruct c as [|note_id|now rnd payload|now note_id payload|note_id];
    cbn [touched] in Hk; try reflexivity.
  - destruct (NoteCreate.valid payload); [|reflexivity].
    apply dict_get_set_other. congruence.
  - destruct (dict_get note_id s); [|reflexivity].
    apply dict_get_set_other. congruence.
  - apply dict_get_remove_other. congruence.
Qed.

Lemma call_changes_only_its_entry_witness :
  touched (DeleteNote shopping_id) <> Some todo_id /\
  fst (get_note todo_id (snd (perform (DeleteNote shopping_id) sample_store)))
  = Returned (Some (Note.Build todo_id "Todo" "Finish report" (Some ["work"]) 20 20)).
Proof.
  assert (H : touched (DeleteNote shopping_id) <> Some todo_id) by discriminate.
  split; [exact H|].
  exact (f_equal fst (call_changes_only_its_entry (DeleteNote shopping_id)
                        sample_store todo_id H)).
Defined.

(** X2. In a reachable state the number of notes listed changes by a call
    as follows: a creation with a valid payload adds one note when the
    generated id is not yet a key and none when it is; a deletion removes
    one note when the id is a key and none when it is not; every other call,
    an update included, leaves the number as it is. *)
Theorem note_count :
  forall (s : Store) (c : call) (before after : list Note.t),
    reachable s ->
    fst (list_notes s) = Returned before ->
    fst (list_notes (snd (perform c s))) = Returned after ->
    List.length after =
    match c with
    | CreateNote _ rnd payload =>
        if NoteCreate.valid payload
        then match fst (get_note (uuid4_hex rnd) s) with
             | Returned None => S (List.length before)
             | _ => List.length before
             end
        else List.length before
    | DeleteNote note_id =>
        match fst (get_note note_id s) with
        | Returned (Some _) => pred (List.length before)
        | _ => List.length before
        end
    | _ => List.length before
    end.
Proof.
  intros s c before after Hr Hb Ha.
  rewrite Eqns.list_notes_eq in Hb, Ha. cbn [fst] in Hb, Ha.
  injection Hb as <-. injection Ha as <-.
  rewrite !sorted_length, !dict_values_length, perform_store.
  destruct c as [|note_id|now rnd payload|now note_id payload|note_id];
    try reflexivity.
  - destruct (NoteCreate.valid payload); [|reflexivity].
    rewrite dict_set_length, Eqns.get_note_eq. cbn [fst].
    now destruct (dict_get (uuid4_hex rnd) s).
  - destruct (dict_get note_id s) eqn:Hget; [|reflexivity].
    now rewrite dict_set_length, Hget.
  - rewrite Eqns.get_note_eq. cbn [fst].
    destruct (dict_get note_id s) as [n|] eqn:Hget.
    + rewrite <- (dict_remove_length note_id n s (reachable_wf s Hr) Hget).
      reflexivity.
    + now rewrite dict_remove_absent.
Qed.

Lemma note_count_witness :
  reachable sample_store /\
  List.length
    (sorted_by_updated_at_desc
       (dict_values (snd (perform (DeleteNote shopping_id) sample_store)))) = 1%nat.
Proof.
  assert (Hr : reachable sample_store) by (exists two_notes; reflexivity).
  split; [exact Hr|].
  exact (note_count sample_store (DeleteNote shopping_id) _ _ Hr eq_refl eq_refl).
Defined.

(** X3. When [uuid4] produces an id that is already a key, [create_note]
    does not fail: it replaces the note stored under the id, in place. The
    keys and their order stay, lookup of the id gives the new note, and in a
    reachable state the note stored before is gone. *)
Theorem create_note_collision_overwrites :
  forall (s : Store) (now : datetime) (rnd : Z) (payload : NoteCreate.t)
         (old : Note.t),
    NoteCreate.valid payload = true ->
    fst (get_note (uuid4_hex rnd) s) = Returned (Some old) ->
    exists note s',
      create_note now rnd payload s = (Returned note, s') /\
      dict_keys s' = dict_keys s /\
      get_note (uuid4_hex rnd) s' = (Returned (Some note), s') /\
      Note.created_at note = now /\
      (reachable s -> old <> note -> ~ In old (dict_values s')).
Proof.
  intros s now rnd payload old Hvalid Hget.
  rewrite Eqns.get_note_eq in Hget. cbn [fst] in Hget. injection Hget as Hget.
  pose proof (perform_store (CreateNote now rnd payload) s) as Hstep.
  cbv beta iota in Hstep. rewrite Hvalid in Hstep.
  rewrite (Eqns.create_note_valid _ _ _ _ Hvalid). cbv zeta.
  eexists. eexists. split; [reflexivity|].
  split; [now rewrite dict_set_keys, Hget|].
  split; [now rewrite Eqns.get_note_eq, dict_get_set_same|].
  split; [reflexivity|].
  intros Hr Hne Hin.
  pose proof (reachable_step (CreateNote now rnd payload) s Hr) as Hr'.
  rewrite Hstep in Hr'.
  pose proof (reachable_id_lookup _ old Hr' Hin) as Hold.
  rewrite (key_consistent_get s _ old (reachable_key_consistent s Hr) Hget) in Hold.
  rewrite dict_get_set_same in Hold. injection Hold as Hold. now apply Hne.
Qed.

Lemma create_note_collision_overwrites_witness :
  NoteCreate.valid todo = true /\
  fst (get_note (uuid4_hex 1) sample_store)
  = Returned (Some (Note.Build shopping_id "Shopping" "Milk, eggs" None 10 10)) /\
  exists note s',
    create_note 30 1 todo sample_store = (Returned note, s') /\
    dict_keys s' = [shopping_id; todo_id] /\
    Note.created_at note = 30.
Proof.
  split; [reflexivity|]. split; [reflexivity|].
  destruct (create_note_collision_overwrites sample_store 30 1 todo
              (Note.Build shopping_id "Shopping" "Milk, eggs" None 10 10)
              eq_refl eq_refl)
    as (note & s' & Hrun & Hkeys & _ & Hnow & _).
  exists note, s'. repeat split; assumption.
Defined.

(** ** The order of the listing *)

(** X4. A note touched at a clock reading later than the [updated_at] of
    every stored note is listed first: this holds for the note [update_note]
    returns and for the note [create_note] returns. *)
Theorem touched_note_listed_first :
  forall (s : Store) (now : datetime),
    (forall m, In m (dict_values s) -> Note.updated_at m < now) ->
    (forall note_id payload existing,
       fst (get_note note_id s) = Returned (Some existing) ->
       exists updated s' rest,
         update_note now note_id payload s = (Returned (Some updated), s') /\
         list_notes s' = (Returned (updated :: rest), s')) /\
    (forall rnd payload,
       NoteCreate.valid payload = true ->
       exists note s' rest,
         create_note now rnd payload s = (Returned note, s') /\
         list_notes s' = (Returned (note :: rest), s')).
Proof.
  intros s now Hlater.
  assert (Hfirst : forall k n, Note.updated_at n = now ->
            exists rest,
              sorted_by_updated_at_desc (dict_values (dict_set k n s)) = n :: rest).
  { intros k n Hn. apply sorted_latest_first; [apply dict_values_set_new|].
    intros m Hm. apply dict_values_set_In in Hm as [->|Hm]; [now left|].
    right. rewrite Hn. now apply Hlater. }
  split.
  - intros note_id payload existing Hget.
    rewrite Eqns.get_note_eq in Hget. cbn [fst] in Hget. injection Hget as Hget.
    rewrite (Eqns.update_note_present _ _ _ _ _ Hget). cbv zeta.
    match goal with
    | |- context [dict_set note_id ?u s] => destruct (Hfirst note_id u eq_refl) as [rest Hrest]
    end.
    eexists. eexists. exists rest. split; [reflexivity|].
    now rewrite Eqns.list_notes_eq, Hrest.
  - intros rnd payload Hvalid.
    rewrite (Eqns.create_note_valid _ _ _ _ Hvalid). cbv zeta.
    match goal with
    | |- context [dict_set _ ?u s] => destruct (Hfirst (uuid4_hex rnd) u eq_refl) as [rest Hrest]
    end.
    eexists. eexists. exists rest. split; [reflexivity|].
    now rewrite Eqns.list_notes_eq, Hrest.
Qed.

Lemma touched_note_listed_first_witness :
  (forall m, In m (dict_values sample_store) -> Note.updated_at m < 30) /\
  exists updated s' rest,
    update_note 30 shopping_id touch sample_store = (Returned (Some updated), s') /\
    list_notes s' = (Returned (updated :: rest), s').
Proof.
  assert (H : forall m, In m (dict_values sample_store) -> Note.updated_at m < 30).
  { intros m [<-|[<-|[]]]; reflexivity. }
  split; [exact H|].
  exact (proj1 (touched_note_listed_first sample_store 30 H) shopping_id touch
           (Note.Build shopping_id "Shopping" "Milk, eggs" None 10 10) eq_refl).
Defined.

(** X5. In a reachable state, deleting a note takes exactly the notes with
    that id out of the listing and leaves the others in the order they had. *)
Theorem delete_note_listing :
  forall (s : Store) (note_id : str) (before : list Note.t),
    reachable s ->
    fst (list_notes s) = Returned before ->
    fst (list_notes (snd (delete_note note_id s)))
    = Returned (filter (fun n => negb (String.eqb note_id (Note.id n))) before).
Proof.
  intros s note_id before Hr Hb.
  rewrite Eqns.list_notes_eq in Hb. cbn [fst] in Hb. injection Hb as <-.
  rewrite Eqns.delete_note_eq, Eqns.list_notes_eq. cbn [fst snd].
  rewrite (dict_remove_values s note_id (reachable_key_consistent s Hr)).
  now rewrite sorted_filter.
Qed.

Lemma delete_note_listing_witness :
  reachable sample_store /\
  fst (list_notes (snd (delete_note todo_id sample_store)))
  = Returned [Note.Build shopping_id "Shopping" "Milk, eggs" None 10 10].
Proof.
  assert (Hr : reachable sample_store) by (exists two_notes; reflexivity).
  split; [exact Hr|].
  exact (delete_note_listing sample_store todo_id _ Hr eq_refl).
Defined.

(** X6. In a listing, a note never comes before one touched later, at any
    distance: for positions [i < j] the note at [i] has an [updated_at] not
    before that of the note at [j]; so the first note listed is one touched
    last of all stored notes. *)
Theorem list_notes_all_pairs :
  forall (s : Store) (ns : list Note.t),
    fst (list_notes s) = Returned ns ->
    (forall i j a b, (i < j)%nat ->
       nth_error ns i = Some a -> nth_error ns j = Some b ->
       Note.updated_at a >= Note.updated_at b) /\
    (forall first rest m, ns = first :: rest -> In m (dict_values s) ->
       Note.updated_at first >= Note.updated_at m).
Proof.
  intros s ns Hns. rewrite Eqns.list_notes_eq in Hns. cbn [fst] in Hns.
  injection Hns as <-.
  pose proof (sorted_strongly (dict_values s)) as Hss. split.
  - intros i j a b Hij Ha Hb.
    pose proof (StronglySorted_pairs _ Hss i j a b Hij Ha Hb) as H.
    unfold desc in H. lia.
  - intros first rest m Heq Hin.
    apply (Permutation_in _ (sorted_perm (dict_values s))) in Hin.
    rewrite Heq in Hin, Hss. destruct Hin as [<-|Hin]; [lia|].
    apply StronglySorted_inv in Hss as [_ Hall]. rewrite Forall_forall in Hall.
    specialize (Hall m Hin). unfold desc in Hall. lia.
Qed.

Lemma list_notes_all_pairs_witness :
  fst (list_notes sample_store)
  = Returned [Note.Build todo_id "Todo" "Finish report" (Some ["work"]) 20 20;
              Note.Build shopping_id "Shopping" "Milk, eggs" None 10 10] /\
  forall m, In m (dict_values sample_store) -> 20 >= Note.updated_at m.
Proof.
  split; [reflexivity|].
  intros m Hm.
  exact (proj2 (list_notes_all_pairs sample_store _ eq_refl) _ _ m eq_refl Hm).
Defined.

(** ** Updates *)

(** X7. Repeating an update with the same payload at the same clock reading
    changes nothing more: the second call returns what the first returned
    and leaves the store the first left. *)
Theorem update_note_idempotent :
  forall (s : Store) (now : datetime) (note_id : str) (payload : NoteUpdate.t),
    update_note now note_id payload (snd (update_note now note_id payload s))
    = update_note now note_id payload s.
Proof.
  intros s now note_id payload.
  destruct (dict_get note_id s) as [existing|] eqn:Hget.
  - rewrite (Eqns.update_note_present _ _ _ _ _ Hget). cbv zeta. cbn [snd].
    rewrite (Eqns.update_note_present _ _ _ _ _ (dict_get_set_same _ _ _)).
    cbv zeta. rewrite dict_set_twice.
    unfold Note.model_copy. cbn [Note.id Note.title Note.content Note.tags
                                 Note.created_at].
    destruct (NoteUpdate.title payload), (NoteUpdate.content payload),
      (NoteUpdate.tags payload); reflexivity.
  - rewrite (Eqns.update_note_absent _ _ _ _ Hget). cbn [snd].
    now rewrite (Eqns.update_note_absent _ _ _ _ Hget).
Qed.

(** X8. [update_note] does not validate what it stores. A title that the
    schema rejects, for which [create_note] raises [ValidationError] and
    stores nothing, is stored by [update_note] when the payload carries it. *)
Theorem update_note_skips_validation :
  forall (s : Store) (now : datetime) (rnd : Z) (note_id : str)
         (existing : Note.t) (title : str),
    title_ok title = false ->
    fst (get_note note_id s) = Returned (Some existing) ->
    (forall content tags,
       create_note now rnd (NoteCreate.Build title content tags) s
       = (Raised ValidationError, s)) /\
    (forall fields,
       exists updated s',
         update_note now note_id (NoteUpdate.Build (Some title) None None fields) s
         = (Returned (Some updated), s') /\
         Note.title updated = title /\
         get_note note_id s' = (Returned (Some updated), s')).
Proof.
  intros s now rnd note_id existing title Hbad Hget.
  rewrite Eqns.get_note_eq in Hget. cbn [fst] in Hget. injection Hget as Hget.
  split.
  - intros content tags. apply Eqns.create_note_invalid.
    unfold NoteCreate.valid. cbn [NoteCreate.title]. now rewrite Hbad.
  - intros fields. rewrite (Eqns.update_note_present _ _ _ _ _ Hget). cbv zeta.
    eexists. eexists. split; [reflexivity|]. split; [reflexivity|].
    now rewrite Eqns.get_note_eq, dict_get_set_same.
Qed.

Lemma update_note_skips_validation_witness :
  title_ok "" = false /\
  fst (get_note todo_id sample_store)
  = Returned (Some (Note.Build todo_id "Todo" "Finish report" (Some ["work"]) 20 20)) /\
  create_note 30 3 (NoteCreate.Build "" "text" None) sample_store
  = (Raised ValidationError, sample_store) /\
  exists updated s',
    update_note 30 todo_id (NoteUpdate.Build (Some "") None None [F_title]) sample_store
    = (Returned (Some updated), s') /\
    Note.title updated = "".
Proof.
  split; [reflexivity|]. split; [reflexivity|].
  destruct (update_note_skips_validation sample_store 30 3 todo_id
              (Note.Build todo_id "Todo" "Finish report" (Some ["work"]) 20 20)
              "" eq_refl eq_refl) as [Hcreate Hupdate].
  split; [exact (Hcreate "text" None)|].
  destruct (Hupdate [F_title]) as (updated & s' & Hrun & Htitle & _).
  exists updated, s'. split; assumption.
Defined.

Lemma validated_app h1 h2 : validated (h1 ++ h2) = validated h1 && validated h2.
Proof.
  induction h1 as [|c h1 IH]; [reflexivity|].
  destruct c; simpl; rewrite IH; try reflexivity. now rewrite andb_assoc.
Qed.

(** X9. A payload that [NoteUpdate] validation returns meets the constraints
    on its attributes; and along a history whose update payloads all meet
    them, every stored note has a title of 1 to 200 characters and a
    non-empty content. *)
Theorem validated_history_keeps_notes_valid :
  (forall body payload,
     NoteUpdate.model_validate body = Returned payload -> update_ok payload = true) /\
  (forall history,
     validated history = true ->
     forall n, In n (dict_values (run history __init__)) ->
       title_ok (Note.title n) = true /\ content_ok (Note.content n) = true).
Proof.
  split.
  - intros body payload. unfold NoteUpdate.model_validate, update_ok.
    destruct (NoteUpdate.member_ok title_ok (NoteUpdate.b_title body)
              && NoteUpdate.member_ok content_ok (NoteUpdate.b_content body))
      eqn:Hok; [|discriminate].
    intros [= <-]. cbn [NoteUpdate.title NoteUpdate.content].
    apply andb_true_iff in Hok as [Ht Hc]. apply andb_true_iff.
    destruct (NoteUpdate.b_title body), (NoteUpdate.b_content body); simpl in *; auto.
  - induction history as [|c history IH] using rev_ind; intros Hv n; [intros []|].
    rewrite validated_app in Hv. apply andb_true_iff in Hv as [Hv Hc].
    specialize (IH Hv). rewrite run_snoc, perform_store.
    set (s := run history __init__) in *.
    destruct c as [|note_id|now rnd payload|now note_id payload|note_id].
    + apply IH.
    + apply IH.
    + unfold NoteCreate.valid.
      destruct (title_ok (NoteCreate.title payload)
                && content_ok (NoteCreate.content payload)) eqn:Hok; [|apply IH].
      intros Hin. apply dict_values_set_In in Hin as [->|Hin]; [|now apply IH].
      now apply andb_true_iff in Hok.
    + destruct (dict_get note_id s) as [existing|] eqn:Hget; [|apply IH].
      intros Hin. apply dict_values_set_In in Hin as [->|Hin]; [|now apply IH].
      assert (Hex : In existing (dict_values s)).
      { apply dict_values_In. exists note_id. now apply dict_get_In. }
      destruct (IH existing Hex) as [Ht Hcn].
      cbn [validated] in Hc. rewrite andb_true_r in Hc.
      unfold update_ok in Hc. apply andb_true_iff in Hc as [Hpt Hpc].
      cbn [Note.model_copy Note.title Note.content].
      destruct (NoteUpdate.title payload), (NoteUpdate.content payload); auto.
    + intros Hin. apply dict_values_remove_In in Hin. now apply IH.
Qed.

Lemma validated_history_keeps_notes_valid_witness :
  validated (two_notes ++ [UpdateNote 30 shopping_id retitle]) = true /\
  forall n,
    In n (dict_values (run (two_notes ++ [UpdateNote 30 shopping_id retitle]) __init__)) ->
    title_ok (Note.title n) = true /\ content_ok (Note.content n) = true.
Proof.
  split; [reflexivity|].
  exact (proj2 validated_history_keeps_notes_valid
           (two_notes ++ [UpdateNote 30 shopping_id retitle])%list eq_refl).
Defined.

(** X10. The [id] and the [created_at] of a stored note never change while
    the note stays under its key: after any call other than a creation that
    generates this very key, the note found under the key, if any, has the
    [id] and the [created_at] of the note found before. *)
Theorem created_at_is_immutable :
  forall (c : call) (s : Store) (k : str) (n n' : Note.t),
    match c with
    | CreateNote _ rnd _ => uuid4_hex rnd <> k
    | _ => True
    end ->
    fst (get_note k s) = Returned (Some n) ->
    fst (get_note k (snd (perform c s))) = Returned (Some n') ->
    Note.id n' = Note.id n /\ Note.created_at n' = Note.created_at n.
Proof.
  intros c s k n n' Hc. rewrite !Eqns.get_note_eq. cbn [fst].
  intros [= Hn] [= Hn']. rewrite perform_store in Hn'.
  destruct c as [|note_id|now rnd payload|now note_id payload|note_id].
  - rewrite Hn in Hn'. injection Hn' as <-. now split.
  - rewrite Hn in Hn'. injection Hn' as <-. now split.
  - destruct (NoteCreate.valid payload).
    + rewrite dict_get_set_other, Hn in Hn' by congruence.
      injection Hn' as <-. now split.
    + rewrite Hn in Hn'. injection Hn' as <-. now split.
  - destruct (String.eqb_spec k note_id) as [->|Hne].
    + rewrite Hn, dict_get_set_same in Hn'. injection Hn' as <-. now split.
    + destruct (dict_get note_id s).
      * rewrite dict_get_set_other, Hn in Hn' by assumption.
        injection Hn' as <-. now split.
      * rewrite Hn in Hn'. injection Hn' as <-. now split.
  - destruct (String.eqb_spec k note_id) as [->|Hne].
    + now rewrite dict_get_remove_same in Hn'.
    + rewrite dict_get_remove_other, Hn in Hn' by assumption.
      injection Hn' as <-. now split.
Qed.

Lemma created_at_is_immutable_witness :
  fst (get_note shopping_id sample_store)
  = Returned (Some (Note.Build shopping_id "Shopping" "Milk, eggs" None 10 10)) /\
  fst (get_note shopping_id (snd (perform (UpdateNote 30 shopping_id retitle) sample_store)))
  = Returned (Some (Note.Build shopping_id "X" "Milk, eggs" None 10 30)) /\
  Note.created_at (Note.Build shopping_id "X" "Milk, eggs" None 10 30) = 10.
Proof.
  split; [reflexivity|]. split; [reflexivity|].
  exact (proj2 (created_at_is_immutable (UpdateNote 30 shopping_id retitle)
                  sample_store shopping_id _ _ I eq_refl eq_refl)).
Defined.

(** ** Identifiers *)

Lemma uuid4_int_bit rnd i :
  0 <= i ->
  Z.testbit (uuid4_int rnd) i =
  match forced i with Some b => b | None => Z.testbit rnd i end.
Proof.
  intros Hi. unfold uuid4_int, forced. cbv zeta.
  change (Z.shiftl 0xc000 48) with (Z.shiftl (Z.ones 2) 62).
  change (Z.shiftl 0x8000 48) with (2 ^ 63).
  change (Z.shiftl 0xf000 64) with (Z.shiftl (Z.ones 4) 76).
  change (Z.shiftl 4 76) with (2 ^ 78).
  rewrite !Z.lor_spec, !Z.land_spec, !Z.lor_spec, !Z.land_spec.
  rewrite !Z.lnot_spec, !Z.shiftl_spec, !Z.testbit_ones, !Z.pow2_bits_eqb by lia.
  rewrite (Z.eqb_sym 63 i), (Z.eqb_sym 78 i).
  destruct (Z.eqb_spec i 63), (Z.eqb_spec i 78), (Z.eqb_spec i 62),
    (Z.leb_spec 76 i), (Z.ltb_spec i 80),
    (Z.leb_spec 0 (i - 62)), (Z.ltb_spec (i - 62) 2),
    (Z.leb_spec 0 (i - 76)), (Z.ltb_spec (i - 76) 4);
    cbn; try lia; try reflexivity; destruct (Z.testbit rnd i); reflexivity.
Qed.

Lemma nibble_bit x k j :
  0 <= k -> 0 <= j ->
  Z.testbit (Z.land (Z.shiftr x k) 15) j = Z.testbit x (j + k) && (j <? 4).
Proof.
  intros Hk Hj. change 15 with (Z.ones 4).
  now rewrite Z.land_spec, Z.shiftr_spec, Z.testbit_ones_nonneg by lia.
Qed.

Lemma version_nibble rnd : Z.land (Z.shiftr (uuid4_int rnd) 76) 15 = 4.
Proof.
  apply Z.bits_inj'. intros j Hj.
  rewrite nibble_bit, uuid4_int_bit by lia. change 4 with (2 ^ 2) at 2.
  rewrite Z.pow2_bits_eqb by lia. unfold forced.
  destruct (Z.eqb_spec (j + 76) 63), (Z.eqb_spec (j + 76) 78), (Z.eqb_spec (j + 76) 62),
    (Z.leb_spec 76 (j + 76)), (Z.ltb_spec (j + 76) 80), (Z.ltb_spec j 4), (Z.eqb_spec 2 j);
    cbn; try lia; try reflexivity; now rewrite andb_false_r.
Qed.

Lemma variant_nibble rnd :
  Z.land (Z.shiftr (uuid4_int rnd) 60) 15 = Z.lor 8 (Z.land (Z.shiftr rnd 60) 3).
Proof.
  apply Z.bits_inj'. intros j Hj.
  rewrite nibble_bit, uuid4_int_bit by lia.
  change 3 with (Z.ones 2). change 8 with (2 ^ 3).
  rewrite Z.lor_spec, Z.land_spec, Z.shiftr_spec, Z.pow2_bits_eqb, Z.testbit_ones_nonneg by lia.
  unfold forced.
  destruct (Z.eqb_spec (j + 60) 63), (Z.eqb_spec (j + 60) 78), (Z.eqb_spec (j + 60) 62),
    (Z.leb_spec 76 (j + 60)), (Z.ltb_spec (j + 60) 80), (Z.ltb_spec j 4), (Z.eqb_spec 3 j),
    (Z.ltb_spec j 2);
    cbn; try lia; try reflexivity; now rewrite ?andb_false_r, ?andb_true_r.
Qed.

Lemma variant_digit rnd :
  In (hex_digit (Z.land (Z.shiftr (uuid4_int rnd) 60) 15)) ["8"; "9"; "a"; "b"]%char.
Proof.
  rewrite variant_nibble. change 3 with (Z.ones 2). rewrite Z.land_ones by lia.
  pose proof (Z.mod_pos_bound (Z.shiftr rnd 60) (2 ^ 2) eq_refl) as Hb.
  change (2 ^ 2) with 4 in *.
  assert (H : Z.shiftr rnd 60 mod 4 = 0 \/ Z.shiftr rnd 60 mod 4 = 1 \/
              Z.shiftr rnd 60 mod 4 = 2 \/ Z.shiftr rnd 60 mod 4 = 3) by lia.
  destruct H as [-> | [-> | [-> | ->]]]; cbn; auto.
Qed.

Lemma hex_digit_inj a b :
  0 <= a < 16 -> 0 <= b < 16 -> hex_digit a = hex_digit b -> a = b.
Proof.
  intros Ha Hb.
  assert (Ea : a = 0 \/ a = 1 \/ a = 2 \/ a = 3 \/ a = 4 \/ a = 5 \/ a = 6 \/ a = 7 \/
               a = 8 \/ a = 9 \/ a = 10 \/ a = 11 \/ a = 12 \/ a = 13 \/ a = 14 \/ a = 15)
    by lia.
  assert (Eb : b = 0 \/ b = 1 \/ b = 2 \/ b = 3 \/ b = 4 \/ b = 5 \/ b = 6 \/ b = 7 \/
               b = 8 \/ b = 9 \/ b = 10 \/ b = 11 \/ b = 12 \/ b = 13 \/ b = 14 \/ b = 15)
    by lia.
  repeat (destruct Ea as [->|Ea]); try subst a;
    repeat (destruct Eb as [->|Eb]); try subst b;
    intros H; try reflexivity; discriminate H.
Qed.

Lemma nibble_range x k : 0 <= Z.land (Z.shiftr x k) 15 < 16.
Proof.
  change 15 with (Z.ones 4). rewrite Z.land_ones by lia.
  apply Z.mod_pos_bound. reflexivity.
Qed.

Lemma hex_fixed_S w n :
  hex_fixed (S w) n =
  String (hex_digit (Z.land (Z.shiftr n (4 * Z.of_nat w)) 15)) (hex_fixed w n).
Proof. reflexivity. Qed.

Lemma String_inj c1 s1 c2 s2 : String c1 s1 = String c2 s2 -> c1 = c2 /\ s1 = s2.
Proof. intros H. now injection H. Qed.

Lemma hex_fixed_inj w n m :
  hex_fixed w n = hex_fixed w m ->
  forall i, 0 <= i < 4 * Z.of_nat w -> Z.testbit n i = Z.testbit m i.
Proof.
  induction w as [|w IH]; intros H i Hi; [lia|].
  rewrite !hex_fixed_S in H. apply String_inj in H as [Hd Ht].
  destruct (Z.lt_ge_cases i (4 * Z.of_nat w)) as [Hlow|Hhigh].
  - apply IH; [exact Ht | lia].
  - apply hex_digit_inj in Hd; try apply nibble_range.
    apply (f_equal (fun z => Z.testbit z (i - 4 * Z.of_nat w))) in Hd.
    cbv beta in Hd.
    rewrite (nibble_bit n), (nibble_bit m) in Hd by lia.
    replace (i - 4 * Z.of_nat w + 4 * Z.of_nat w) with i in Hd by lia.
    destruct (Z.ltb_spec (i - 4 * Z.of_nat w) 4); [|lia].
    now rewrite !andb_true_r in Hd.
Qed.

Lemma hex_fixed_ext w n m :
  (forall i, 0 <= i < 4 * Z.of_nat w -> Z.testbit n i = Z.testbit m i) ->
  hex_fixed w n = hex_fixed w m.
Proof.
  induction w as [|w IH]; intros H; [reflexivity|].
  rewrite !hex_fixed_S. f_equal.
  - f_equal. apply Z.bits_inj'. intros j Hj. rewrite !nibble_bit by lia.
    destruct (Z.ltb_spec j 4); [|now rewrite !andb_false_r].
    rewrite H by lia. reflexivity.
  - apply IH. intros i Hi. apply H. lia.
Qed.

Lemma hex_fixed_get w n i :
  (i < w)%nat ->
  String.get i (hex_fixed w n) =
  Some (hex_digit (Z.land (Z.shiftr n (4 * Z.of_nat (w - 1 - i))) 15)).
Proof.
  revert i. induction w as [|w IH]; intros i Hi; [lia|].
  rewrite hex_fixed_S. destruct i as [|i]; cbn [String.get].
  - now replace (S w - 1 - 0)%nat with w by lia.
  - rewrite IH by lia. now replace (S w - 1 - S i)%nat with (w - 1 - i)%nat by lia.
Qed.

Lemma hex_digit_is_hex d : is_hex_char (hex_digit d) = true.
Proof.
  destruct d as [|p|p]; try reflexivity.
  do 4 (try destruct p as [p|p|]); reflexivity.
Qed.

Lemma hex_fixed_chars w n :
  forallb is_hex_char (list_ascii_of_string (hex_fixed w n)) = true.
Proof.
  induction w as [|w IH]; [reflexivity|].
  rewrite hex_fixed_S. cbn [list_ascii_of_string forallb].
  now rewrite hex_digit_is_hex, IH.
Qed.

Lemma generated_ids_form history k :
  In k (generated_ids history) -> exists rnd, k = uuid4_hex rnd.
Proof.
  induction history as [|c history IH]; [intros []|].
  destruct c; cbn [generated_ids]; try exact IH.
  intros [<-|Hin]; [now eexists | now apply IH].
Qed.

(** X11. In a reachable state the id of every stored note has the form of a
    version 4 UUID in hexadecimal: thirty-two characters, all of them
    lowercase hexadecimal digits, the thirteenth being 4 and the seventeenth
    one of 8, 9, a, b. *)
Theorem stored_ids_are_uuid4_hex :
  forall (s : Store) (n : Note.t),
    reachable s ->
    In n (dict_values s) ->
    String.length (Note.id n) = 32%nat /\
    forallb is_hex_char (list_ascii_of_string (Note.id n)) = true /\
    String.get 12 (Note.id n) = Some "4"%char /\
    exists c, String.get 16 (Note.id n) = Some c /\ In c ["8"; "9"; "a"; "b"]%char.
Proof.
  intros s n Hr Hin.
  assert (Hkey : In (Note.id n) (dict_keys s)).
  { apply dict_values_In in Hin as [k Hk].
    rewrite (reachable_key_consistent s Hr k n Hk).
    change k with (fst (k, n)). now apply in_map. }
  destruct Hr as [history ->].
  apply run_keys_generated, generated_ids_form in Hkey as [rnd ->].
  unfold uuid4_hex. split; [apply hex_fixed_length|].
  split; [apply hex_fixed_chars|].
  rewrite !hex_fixed_get by lia. split.
  - change (4 * Z.of_nat (32 - 1 - 12)) with 76. now rewrite version_nibble.
  - change (4 * Z.of_nat (32 - 1 - 16)) with 60. eexists. split; [reflexivity|].
    apply variant_digit.
Qed.

Lemma stored_ids_are_uuid4_hex_witness :
  reachable sample_store /\
  In (Note.Build shopping_id "Shopping" "Milk, eggs" None 10 10)
    (dict_values sample_store) /\
  String.length shopping_id = 32%nat /\
  String.get 12 shopping_id = Some "4"%char.
Proof.
  assert (Hr : reachable sample_store) by (exists two_notes; reflexivity).
  assert (Hin : In (Note.Build shopping_id "Shopping" "Milk, eggs" None 10 10)
                  (dict_values sample_store)) by (left; reflexivity).
  split; [exact Hr|]. split; [exact Hin|].
  destruct (stored_ids_are_uuid4_hex sample_store _ Hr Hin) as (Hlen & _ & Hver & _).
  split; [exact Hlen | exact Hver].
Defined.

(** X12. Two readings of the entropy source give the same identifier exactly
    when they agree, among the low 128 bits, on the 122 bits that [uuid4]
    does not force. *)
Theorem uuid4_hex_injective :
  forall (r1 r2 : Z),
    uuid4_hex r1 = uuid4_hex r2 <->
    (forall i, 0 <= i < 128 -> forced i = None -> Z.testbit r1 i = Z.testbit r2 i).
Proof.
  intros r1 r2. unfold uuid4_hex. split.
  - intros H i Hi Hfree.
    pose proof (hex_fixed_inj 32 _ _ H i) as Hbit.
    rewrite !uuid4_int_bit, Hfree in Hbit by lia. apply Hbit.
    change (4 * Z.of_nat 32) with 128. exact Hi.
  - intros H. apply hex_fixed_ext. intros i Hi.
    change (4 * Z.of_nat 32) with 128 in Hi.
    rewrite !uuid4_int_bit by lia.
    destruct (forced i) eqn:Hf; [reflexivity | now apply H].
Qed.

(** * The handlers *)

Module EndpointEqns.

Lemma get_handler_eq note_id s :
  Endpoint.get_note note_id s =
  match dict_get note_id s with
  | Some n => (Returned n, s)
  | None => (Raised (HTTPException 404 "Note not found"), s)
  end.
Proof.
  unfold Endpoint.get_note. cbn [bind Monad_Repo]. rewrite Eqns.get_note_eq.
  now destruct (dict_get note_id s).
Qed.

Lemma delete_handler_eq note_id s :
  Endpoint.delete_note note_id s =
  match dict_get note_id s with
  | Some _ => (Returned tt, dict_remove note_id s)
  | None => (Raised (HTTPException 404 "Note not found"), s)
  end.
Proof.
  unfold Endpoint.delete_note. cbn [bind Monad_Repo]. rewrite Eqns.delete_note_eq.
  destruct (dict_get note_id s) eqn:Hget; [reflexivity|].
  unfold throw. now rewrite dict_remove_absent.
Qed.

Lemma update_handler_eq now note_id payload s :
  Endpoint.update_note now note_id payload s =
  match InMemoryNotesRepository.update_note now note_id payload s with
  | (Returned (Some n), s') => (Returned n, s')
  | (Returned None, s') => (Raised (HTTPException 404 "Note not found"), s')
  | (Raised e, s') => (Raised e, s')
  end.
Proof.
  unfold Endpoint.update_note. cbn [bind Monad_Repo].
  now destruct (InMemoryNotesRepository.update_note now note_id payload s)
    as [[[n|]|e] s'].
Qed.

End EndpointEqns.

(** X13. On the repository it is passed, each of the get, update and delete
    handlers raises [HTTPException] 404 "Note not found" when the id is not
    stored, and leaves the repository as it was; this is the only way the
    get and delete handlers raise at all. When the id is stored, the get
    handler returns the stored note without changing the repository and the
    update handler returns the note the repository's [update_note] returns. *)
Theorem handlers_map_absence_to_404 :
  forall (s : Store) (now : datetime) (note_id : str) (payload : NoteUpdate.t),
    (fst (get_note note_id s) = Returned None ->
     Endpoint.get_note note_id s = (Raised (HTTPException 404 "Note not found"), s) /\
     Endpoint.update_note now note_id payload s
     = (Raised (HTTPException 404 "Note not found"), s) /\
     Endpoint.delete_note note_id s
     = (Raised (HTTPException 404 "Note not found"), s)) /\
    (forall e s', Endpoint.get_note note_id s = (Raised e, s') ->
       e = HTTPException 404 "Note not found" /\ s' = s /\
       fst (get_note note_id s) = Returned None) /\
    (forall e s', Endpoint.delete_note note_id s = (Raised e, s') ->
       e = HTTPException 404 "Note not found" /\ s' = s /\
       fst (get_note note_id s) = Returned None) /\
    (forall n, fst (get_note note_id s) = Returned (Some n) ->
       Endpoint.get_note note_id s = (Returned n, s) /\
       exists updated s',
         update_note now note_id payload s = (Returned (Some updated), s') /\
         Endpoint.update_note now note_id payload s = (Returned updated, s')).
Proof.
  intros s now note_id payload.
  rewrite EndpointEqns.get_handler_eq, EndpointEqns.delete_handler_eq,
    EndpointEqns.update_handler_eq, Eqns.get_note_eq.
  cbn [fst]. repeat split.
  - destruct (dict_get note_id s); [discriminate | reflexivity].
  - injection H as H. now rewrite (Eqns.update_note_absent _ _ _ _ H).
  - destruct (dict_get note_id s); [discriminate | reflexivity].
  - destruct (dict_get note_id s); congruence.
  - destruct (dict_get note_id s); congruence.
  - destruct (dict_get note_id s); congruence.
  - destruct (dict_get note_id s); congruence.
  - destruct (dict_get note_id s) eqn:Hget; [discriminate|]. injection H as _ <-.
    reflexivity.
  - destruct (dict_get note_id s); congruence.
  - injection H as ->. reflexivity.
  - injection H as H. rewrite (Eqns.update_note_present _ _ _ _ _ H). cbv zeta.
    eexists. eexists. split; reflexivity.
Qed.

Lemma handlers_map_absence_to_404_witness :
  fst (get_note "no-such-id" sample_store) = Returned None /\
  Endpoint.delete_note "no-such-id" sample_store
  = (Raised (HTTPException 404 "Note not found"), sample_store).
Proof.
  split; [reflexivity|].
  destruct (handlers_map_absence_to_404 sample_store 30 "no-such-id" touch)
    as (Habsent & _).
  exact (proj2 (proj2 (Habsent eq_refl))).
Defined.

(** X14. On one repository the handlers compose as a client expects: the
    note the create handler returns for a valid payload is the note the get
    handler then returns for its id; the delete handler then returns, and
    after it the get handler raises 404 for that id. *)
Theorem handlers_create_get_delete :
  forall (s : Store) (now : datetime) (rnd : Z) (payload : NoteCreate.t),
    NoteCreate.valid payload = true ->
    exists note s1 s2,
      Endpoint.create_note now rnd payload s = (Returned note, s1) /\
      Endpoint.get_note (Note.id note) s1 = (Returned note, s1) /\
      Endpoint.delete_note (Note.id note) s1 = (Returned tt, s2) /\
      Endpoint.get_note (Note.id note) s2
      = (Raised (HTTPException 404 "Note not found"), s2).
Proof.
  intros s now rnd payload Hvalid. unfold Endpoint.create_note.
  rewrite (Eqns.create_note_valid _ _ _ _ Hvalid). cbv zeta.
  eexists. eexists. eexists. split; [reflexivity|].
  cbn [Note.id].
  rewrite EndpointEqns.get_handler_eq, EndpointEqns.delete_handler_eq, dict_get_set_same.
  split; [reflexivity|]. split; [reflexivity|].
  now rewrite EndpointEqns.get_handler_eq, dict_get_remove_same.
Qed.

Lemma handlers_create_get_delete_witness :
  NoteCreate.valid shopping = true /\
  exists note s1,
    Endpoint.create_note 30 3 shopping sample_store = (Returned note, s1) /\
    Endpoint.get_note (Note.id note) s1 = (Returned note, s1).
Proof.
  split; [reflexivity|].
  destruct (handlers_create_get_delete sample_store 30 3 shopping eq_refl)
    as (note & s1 & s2 & Hcreate & Hget & _).
  exists note, s1. split; assumption.
Defined.

(** ** Requests and the heap *)

Lemma assign_length r s h : List.length (assign r s h) = List.length h.
Proof.
  revert r. induction h as [|s0 h IH]; intros r; [now destruct r|].
  destruct r; simpl; [reflexivity | now rewrite IH].
Qed.

Lemma deref_assign_other r r0 s h : r <> r0 -> deref r (assign r0 s h) = deref r h.
Proof.
  unfold deref. revert r r0. induction h as [|s0 h IH]; intros r r0 Hne;
    [now destruct r0|].
  destruct r0, r; simpl; try reflexivity; [contradiction | apply IH; congruence].
Qed.

Lemma deref_assign_same r s h :
  (r < List.length h)%nat -> deref r (assign r s h) = s.
Proof.
  unfold deref. revert r. induction h as [|s0 h IH]; intros r Hlt; simpl in Hlt; [lia|].
  destruct r; simpl; [reflexivity | apply IH; lia].
Qed.

Lemma on_repo_heap {A : Type} (c : Repo A) (k : A -> outcome A) (h : Heap) :
  snd (on_repo c k h) =
  assign (List.length h) (snd (c InMemoryNotesRepository.__init__))
    (h ++ [InMemoryNotesRepository.__init__])%list.
Proof.
  unfold on_repo, get_notes_repository.
  pose proof (deref_alloc InMemoryNotesRepository.__init__ h) as Hd.
  unfold alloc in *. cbn [fst snd] in Hd. rewrite Hd.
  now destruct (c InMemoryNotesRepository.__init__) as [[a|e] s'].
Qed.

Lemma serve_heap c h :
  serve c h =
  assign (List.length h) (snd (perform c InMemoryNotesRepository.__init__))
    (h ++ [InMemoryNotesRepository.__init__])%list.
Proof.
  destruct c as [|note_id|now rnd payload|now note_id payload|note_id];
    unfold serve, Router.list_notes, Router.get_note, Router.create_note,
      Router.update_note, Router.delete_note;
    rewrite on_repo_heap; f_equal.
  cbn [perform bind ret Monad_Repo].
  now destruct (InMemoryNotesRepository.create_note now rnd payload
                  InMemoryNotesRepository.__init__) as [[a|e] s'].
Qed.

Lemma nth_error_alloc s h :
  nth_error (snd (alloc s h)) (fst (alloc s h)) = Some s.
Proof.
  unfold alloc. cbn [fst snd].
  rewrite nth_error_app2 by lia. now rewrite Nat.sub_diag.
Qed.

Lemma nth_error_assign_same r s h :
  (r < List.length h)%nat -> nth_error (assign r s h) r = Some s.
Proof.
  revert r. induction h as [|s0 h IH]; intros r Hlt; simpl in Hlt; [lia|].
  destruct r; simpl; [reflexivity | apply IH; lia].
Qed.

(** C9. Whatever requests were served before, the provider allocates a new
    repository object for the request: the heap grows by exactly that
    object, at an address no earlier object has and without touching the
    earlier objects, and the backing dict of the object is empty. So
    [list_notes] on it returns the empty list, the list handler answers with
    the empty list, and the get, update and delete handlers answer "not
    found" for every id, also one created by an earlier request; and the
    heap a handler leaves holds the one object more. *)
Theorem provider_yields_empty_repository :
  forall (requests : list call) (h0 : Heap),
    let h := serve_all requests h0 in
    let repo := fst (get_notes_repository h) in
    let h1 := snd (get_notes_repository h) in
    repo = List.length h /\
    h1 = (h ++ [InMemoryNotesRepository.__init__])%list /\
    List.length h1 = S (List.length h) /\
    nth_error h repo = None /\
    nth_error h1 repo = Some [] /\
    (forall r, (r < List.length h)%nat -> nth_error h1 r = nth_error h r) /\
    (forall r, (r < List.length h)%nat -> deref r h1 = deref r h) /\
    deref repo h1 = [] /\
    list_notes (deref repo h1) = (Returned [], []) /\
    fst (Router.list_notes h) = Returned [] /\
    List.length (snd (Router.list_notes h)) = S (List.length h) /\
    nth_error (snd (Router.list_notes h)) repo = Some [] /\
    (forall note_id, fst (Router.get_note note_id h) = not_found) /\
    (forall now note_id payload,
       fst (Router.update_note now note_id payload h) = not_found) /\
    (forall note_id, fst (Router.delete_note note_id h) = not_found).
Proof.
  intros requests h0 h repo h1. subst repo h1. unfold get_notes_repository.
  split; [reflexivity|]. split; [reflexivity|].
  split; [unfold alloc; cbn [snd]; rewrite length_app; simpl; lia|].
  split; [now apply nth_error_None|].
  split; [apply nth_error_alloc|].
  split; [intros r Hlt; unfold alloc; cbn [snd]; now apply nth_error_app1|].
  split; [intros r Hlt; now apply deref_alloc_other|].
  rewrite deref_alloc.
  split; [reflexivity|]. split; [reflexivity|].
  split; [unfold Router.list_notes; now rewrite on_repo_result|].
  assert (Hone : (List.length h
                  < List.length (h ++ [InMemoryNotesRepository.__init__]))%nat)
    by (rewrite length_app; simpl; lia).
  split.
  { unfold Router.list_notes. rewrite on_repo_heap, assign_length, length_app.
    simpl. lia. }
  split.
  { unfold Router.list_notes. rewrite on_repo_heap. cbn [alloc fst].
    now apply nth_error_assign_same. }
  split; [intros note_id; unfold Router.get_note; now rewrite on_repo_result|].
  split.
  - intros now note_id payload. unfold Router.update_note. now rewrite on_repo_result.
  - intros note_id. unfold Router.delete_note. now rewrite on_repo_result.
Qed.

(** X15. Serving a request allocates exactly one repository object, runs the
    call on the empty dict of that object, and touches no object allocated
    before: after a sequence of requests the heap holds one more object per
    request, and every earlier object is as it was. *)
Theorem requests_are_isolated :
  forall (requests : list call) (h : Heap),
    List.length (serve_all requests h) = (List.length h + List.length requests)%nat /\
    (forall r, (r < List.length h)%nat -> deref r (serve_all requests h) = deref r h) /\
    (forall c, deref (List.length h) (serve c h)
               = run [c] InMemoryNotesRepository.__init__).
Proof.
  intros requests h. split; [|split].
  - revert h. induction requests as [|c requests IH]; intros h; simpl; [lia|].
    unfold serve_all in IH. rewrite IH, serve_heap, assign_length, length_app.
    simpl. lia.
  - revert h. induction requests as [|c requests IH]; intros h r Hlt; [reflexivity|].
    unfold serve_all in *. simpl. rewrite IH.
    + rewrite serve_heap, deref_assign_other by lia.
      now apply deref_alloc_other.
    + rewrite serve_heap, assign_length, length_app. simpl. lia.
  - intros c. rewrite serve_heap. simpl run.
    apply deref_assign_same. rewrite length_app. simpl. lia.
Qed.

(** * Configuration and the application *)

(** X16. What [load_config] takes from the environment is the three
    variables it names: [APP_NAME] and [APP_VERSION], each with its default
    when unset and taken as it is when set, the empty string included, and
    [NOTES_DATABASE_URL]; the description and the theme are the defaults
    whatever the environment. Two environments that agree on [APP_NAME] and
    [APP_VERSION] give the same OpenAPI metadata and the same health
    payload, so the database URL shows in neither. *)
Theorem load_config_reads_three_variables :
  forall (env : environ),
    (forall v, getenv env "APP_NAME" = Some v ->
       AppConfig.app_name (load_config env) = v) /\
    (getenv env "APP_NAME" = None ->
     AppConfig.app_name (load_config env) = "Notes Backend API") /\
    (forall v, getenv env "APP_VERSION" = Some v ->
       AppConfig.version (load_config env) = v) /\
    (getenv env "APP_VERSION" = None ->
     AppConfig.version (load_config env) = "1.0.0") /\
    AppConfig.database_url (load_config env) = getenv env "NOTES_DATABASE_URL" /\
    AppConfig.description (load_config env) = AppConfig.default_description /\
    AppConfig.theme (load_config env) = Theme.default /\
    (forall env',
       getenv env' "APP_NAME" = getenv env "APP_NAME" ->
       getenv env' "APP_VERSION" = getenv env "APP_VERSION" ->
       AppConfig.openapi_meta (load_config env')
       = AppConfig.openapi_meta (load_config env) /\
       health_check (load_config env') = health_check (load_config env)).
Proof.
  intros env. unfold load_config, getenv_or, getenv.
  cbn [AppConfig.app_name AppConfig.version AppConfig.database_url
       AppConfig.description AppConfig.theme].
  split; [now intros v ->|]. split; [now intros ->|].
  split; [now intros v ->|]. split; [now intros ->|].
  split; [reflexivity|]. split; [reflexivity|]. split; [reflexivity|].
  intros env' Hn Hv.
  unfold AppConfig.openapi_meta, health_check.
  cbn [AppConfig.app_name AppConfig.version AppConfig.description].
  now rewrite Hn, Hv.
Qed.

Lemma cached_dict_set (k : str) (v : json) (d : dict json) :
  cached (Some (dict_set k v d)) = Some (dict_set k v d).
Proof.
  destruct d as [|[k' v'] d]; cbn [dict_set]; [reflexivity|].
  now destruct (String.eqb k k').
Qed.

Lemma custom_openapi_hit get_openapi config openapi_schema schema :
  cached openapi_schema = Some schema ->
  custom_openapi get_openapi config openapi_schema = (schema, openapi_schema).
Proof. unfold custom_openapi. now intros ->. Qed.

Lemma custom_openapi_miss get_openapi config openapi_schema :
  cached openapi_schema = None ->
  custom_openapi get_openapi config openapi_schema =
  let schema :=
    dict_set "x-theme" (x_theme config)
      (get_openapi (AppConfig.app_name config) (AppConfig.version config)
         (AppConfig.description config)) in
  (schema, Some schema).
Proof. unfold custom_openapi. now intros ->. Qed.

(** X17. [custom_openapi] builds the schema at most once: after a call, the
    attribute holds the schema that call returned, and every later call
    returns that same schema and leaves the attribute alone, whatever the
    generator and the configuration are by then. *)
Theorem custom_openapi_is_cached :
  forall (get_openapi get_openapi' : str -> str -> str -> dict json)
         (config config' : AppConfig.t) (openapi_schema : option (dict json)),
    let first := custom_openapi get_openapi config openapi_schema in
    cached (snd first) = Some (fst first) /\
    custom_openapi get_openapi' config' (snd first) = first.
Proof.
  intros get_openapi get_openapi' config config' openapi_schema first.
  subst first. destruct (cached openapi_schema) as [schema|] eqn:Hc.
  - rewrite (custom_openapi_hit _ _ _ _ Hc). cbn [fst snd].
    split; [exact Hc | now apply custom_openapi_hit].
  - rewrite (custom_openapi_miss _ _ _ Hc). cbv zeta. cbn [fst snd].
    split; [apply cached_dict_set | apply custom_openapi_hit, cached_dict_set].
Qed.

(** X18. On an application without a schema yet, [custom_openapi] returns
    the generated schema with the entry [x-theme] set to the theme of the
    configuration: every other entry is the generator's, an [x-theme] entry
    of the generator is replaced, and the schema is stored in the attribute. *)
Theorem custom_openapi_adds_theme :
  forall (get_openapi : str -> str -> str -> dict json) (config : AppConfig.t)
         (openapi_schema : option (dict json)),
    cached openapi_schema = None ->
    let generated :=
      get_openapi (AppConfig.app_name config) (AppConfig.version config)
        (AppConfig.description config) in
    let schema := fst (custom_openapi get_openapi config openapi_schema) in
    dict_get "x-theme" schema = Some (x_theme config) /\
    (forall k, k <> "x-theme" -> dict_get k schema = dict_get k generated) /\
    snd (custom_openapi get_openapi config openapi_schema) = Some schema.
Proof.
  intros get_openapi config openapi_schema Hnone generated schema.
  subst schema generated. unfold custom_openapi. rewrite Hnone. cbn [fst snd].
  split; [apply dict_get_set_same|]. split; [|reflexivity].
  intros k Hk. now apply dict_get_set_other.
Qed.

Lemma custom_openapi_adds_theme_witness :
  cached (Some []) = None /\
  dict_get "x-theme"
    (fst (custom_openapi (fun title _ _ => [("title", JString title)])
            (load_config []) (Some [])))
  = Some (x_theme (load_config [])).
Proof.
  split; [reflexivity|].
  exact (proj1 (custom_openapi_adds_theme
                  (fun title _ _ => [("title", JString title)])
                  (load_config []) (Some []) eq_refl)).
Defined.

(** ** Titles outside ASCII *)

(** The bounds on a title count code points: a title of 101 euro signs, 303
    bytes long, is within them and is stored; one of 201 euro signs is not. *)
Example title_bounds_count_code_points :
  String.length (times 101 euro) = 303%nat /\
  len (times 101 euro) = 101%nat /\
  title_ok (times 101 euro) = true /\
  title_ok (times 201 euro) = false /\
  fst (create_note 10 1 (NoteCreate.Build (times 101 euro) "text" None) __init__)
  = Returned (Note.Build (uuid4_hex 1) (times 101 euro) "text" None 10 10) /\
  create_note 10 1 (NoteCreate.Build (times 201 euro) "text" None) __init__
  = (Raised ValidationError, __init__).
Proof. repeat split. Qed.
